(** * Session and notification multiplexer of the AutoGen MCP gateway

    A shallow embedding of the tool-call handler, the notification
    broadcasts, the backend bridge and the SSE registration endpoint of
    [src/enhanced_index.ts], together with the tool-call handler of
    [src/index.ts], followed by the properties of the specification that
    were checked against them. *)

From Stdlib Require Import DecimalString.
From stdpp Require Import gmap strings list fin_maps.

Set Warnings "-register-all".

Local Open Scope string_scope.

(** ** JavaScript values *)

(** The values that travel through the handlers are typed [any] in the
    source. [JDouble i d k] is the IEEE double [(i / d) * k], kept
    symbolic: no floating point arithmetic is carried out here. *)
Inductive JsValue : Type :=
| JUndefined
| JNull
| JBool (b : bool)
| JNum (z : Z)
| JDouble (i d k : Z)
| JStr (s : string)
| JArr (items : list JsValue)
| JObj (fields : list (string * JsValue)).

(** [if (v)], [v || w], [v && w]: JavaScript truthiness. For integers
    that a double holds exactly, [(i / d) * k] is [0] or [NaN] exactly
    when [i] or [k] is [0]. *)
Definition truthy (v : JsValue) : bool :=
  match v with
  | JUndefined | JNull => false
  | JBool b => b
  | JNum z => negb (Z.eqb z 0)
  | JDouble i _ k => negb (Z.eqb i 0) && negb (Z.eqb k 0)
  | JStr s => negb (String.eqb s "")
  | JArr _ | JObj _ => true
  end.

(** [v || w] *)
Definition js_or (v w : JsValue) : JsValue := if truthy v then v else w.

(** Property read [obj.key] on the fields of an object literal;
    [undefined] when the key is missing. *)
Fixpoint prop (key : string) (fields : list (string * JsValue)) : JsValue :=
  match fields with
  | [] => JUndefined
  | (k, v) :: rest => if String.eqb k key then v else prop key rest
  end.

(** [`${n}`] for a non-negative integer. *)
Definition decimal (n : N) : string := NilEmpty.string_of_uint (N.to_uint n).

(** [`${z}`] for an integer. *)
Definition integer (z : Z) : string := NilZero.string_of_int (Z.to_int z).

(** ** Thrown values *)

(** [new McpError(code, message)], any other [Error] instance, or a thrown
    value that is not an [Error]. *)
Inductive JsThrown : Type :=
| McpError (code : Z) (message : string)
| JsError (message : string)
| NonError (v : JsValue).

(** [ErrorCode.InternalError] and [ErrorCode.InvalidRequest] of the MCP SDK. *)
Definition InternalError : Z := (-32603)%Z.
Definition InvalidRequest : Z := (-32600)%Z.

(** ** Connections *)

(** A JSON-RPC notification as built by the object literals of the source. *)
Record JsonRpc : Type := mkJsonRpc {
  jsonrpc : string;
  method : string;
  params : list (string * JsValue)
}.

(** An [SSEServerTransport]. The only capability the handlers use is
    [send]; [send_throws] is what a [send] on this connection throws, if it
    throws, for the duration of one handler run. [label] tells two
    connection objects apart. *)
Record SSEServerTransport : Type := mkTransport {
  label : string;
  send_throws : option JsThrown
}.

(** A JavaScript [Map] with string keys: insertion ordered, [set] on a
    present key replaces the value in place. *)
Section JsMap.
Context {V : Type}.

Fixpoint Map_get (k : string) (m : list (string * V)) : option V :=
  match m with
  | [] => None
  | (k', v) :: rest => if String.eqb k' k then Some v else Map_get k rest
  end.

Definition Map_has (k : string) (m : list (string * V)) : bool :=
  match Map_get k m with Some _ => true | None => false end.

Fixpoint Map_set (k : string) (v : V) (m : list (string * V)) : list (string * V) :=
  match m with
  | [] => [(k, v)]
  | (k', v') :: rest =>
      if String.eqb k' k then (k, v) :: rest else (k', v') :: Map_set k v rest
  end.

Fixpoint Map_delete (k : string) (m : list (string * V)) : list (string * V) :=
  match m with
  | [] => []
  | (k', v') :: rest =>
      if String.eqb k' k then rest else (k', v') :: Map_delete k rest
  end.

Definition Map_size (m : list (string * V)) : nat := length m.
End JsMap.

(** ** Observable events *)

Inductive Event : Type :=
| EvDelivered (session : string) (msg : JsonRpc)
| EvSendFailed (session : string) (msg : JsonRpc) (e : JsThrown)
| EvConsoleError (text : string) (e : option JsThrown)
| EvSpawn (toolName : string) (args : JsValue)
| EvResponse (status : nat) (body : JsValue).

(** ** Server state *)

(** The fields of [EnhancedAutoGenServer] that the handlers read or write,
    the number of backend processes spawned so far and the events
    produced so far. *)
Record World : Type := mkWorld {
  sseTransports : list (string * SSEServerTransport);
  subscribers : gset string;
  progressTokens : gmap string string;
  lastResourceUpdate : N;
  spawned : nat;
  trace : list Event
}.

Definition emit (ev : Event) (w : World) : World :=
  mkWorld (sseTransports w) (subscribers w) (progressTokens w)
          (lastResourceUpdate w) (spawned w) (trace w ++ [ev]).

Definition with_progressTokens (f : gmap string string → gmap string string)
    (w : World) : World :=
  mkWorld (sseTransports w) (subscribers w) (f (progressTokens w))
          (lastResourceUpdate w) (spawned w) (trace w).

Definition with_subscribers (f : gset string → gset string) (w : World) : World :=
  mkWorld (sseTransports w) (f (subscribers w)) (progressTokens w)
          (lastResourceUpdate w) (spawned w) (trace w).

Definition with_sseTransports
    (f : list (string * SSEServerTransport) → list (string * SSEServerTransport))
    (w : World) : World :=
  mkWorld (f (sseTransports w)) (subscribers w) (progressTokens w)
          (lastResourceUpdate w) (spawned w) (trace w).

Definition with_lastResourceUpdate (z : N) (w : World) : World :=
  mkWorld (sseTransports w) (subscribers w) (progressTokens w)
          z (spawned w) (trace w).

Definition count_spawn (w : World) : World :=
  mkWorld (sseTransports w) (subscribers w) (progressTokens w)
          (lastResourceUpdate w) (S (spawned w)) (trace w).

(** ** What the process and the libraries provide *)

(** How a spawned backend process ends: the ['error'] event (it could not
    be started) or the ['close'] event with the exit code ([None] when a
    signal killed it) and all that was written to stdout and stderr. *)
Inductive ProcOutcome : Type :=
| ProcError (message : string)
| ProcClose (code : option Z) (stdout stderr : string).

(** The collaborators outside the repository. [child_process n tool args]
    is the fate of the [n]-th process spawned, started with the tool name
    and the JSON text of [args]; [McpError_message code message] is the
    [message] property the SDK gives to [new McpError(code, message)];
    [String_of v] is [String(v)]; the clock is read once per handler run. *)
Record Runtime : Type := mkRuntime {
  JSON_parse : string → option JsValue;
  McpError_message : Z → string → string;
  String_of : JsValue → string;
  child_process : nat → string → JsValue → ProcOutcome;
  Date_now : N;
  Date_toISOString : string;
  process_uptime : JsValue;
  process_memoryUsage : JsValue
}.

(** ** Asynchronous computations

    One handler run, with its awaits taken in order: a state transformer
    that either returns or throws. *)
Inductive Outcome (A : Type) : Type :=
| Returned (a : A)
| Threw (e : JsThrown).
Arguments Returned {A} a.
Arguments Threw {A} e.

Definition Async (A : Type) : Type := World → Outcome A * World.

Definition ret {A} (a : A) : Async A := λ w, (Returned a, w).

Definition throw {A} (e : JsThrown) : Async A := λ w, (Threw e, w).

Definition bind {A B} (c : Async A) (k : A → Async B) : Async B :=
  λ w, match c w with
       | (Returned a, w') => k a w'
       | (Threw e, w') => (Threw e, w')
       end.

(** [try { c } catch (error) { h error }] *)
Definition try_catch {A} (c : Async A) (h : JsThrown → Async A) : Async A :=
  λ w, match c w with
       | (Returned a, w') => (Returned a, w')
       | (Threw e, w') => h e w'
       end.

Definition get {A} (f : World → A) : Async A := λ w, (Returned (f w), w).

Definition update (f : World → World) : Async unit := λ w, (Returned tt, f w).

(** [if (c) { body }] *)
Definition when (c : bool) (body : Async unit) : Async unit :=
  if c then body else ret tt.

Declare Scope async_scope.
Delimit Scope async_scope with async.
Notation "'await' x <- c ; k" := (bind c (λ x, k))
  (at level 10, x name, c at level 100, k at level 200,
   format "'[v' 'await'  x  <-  c ; '/' k ']'") : async_scope.
Notation "'run' c ; k" := (bind c (λ _, k))
  (at level 10, c at level 100, k at level 200,
   format "'[v' 'run'  c ; '/' k ']'") : async_scope.
Local Open Scope async_scope.

(** [for (const x of xs) { body x }] *)
Fixpoint for_of {A} (xs : list A) (body : A → Async unit) : Async unit :=
  match xs with
  | [] => ret tt
  | x :: rest => run body x; for_of rest body
  end.

(** [await transport.send(msg)] on the connection registered as [session]. *)
Definition transport_send (session : string) (t : SSEServerTransport)
    (msg : JsonRpc) : Async unit :=
  match send_throws t with
  | None => λ w, (Returned tt, emit (EvDelivered session msg) w)
  | Some e => λ w, (Threw e, emit (EvSendFailed session msg e) w)
  end.

(** [console.error(text, error)] *)
Definition console_error (text : string) (e : option JsThrown) : Async unit :=
  update (emit (EvConsoleError text e)).

(** ** The backend bridge

    [callPythonHandler] has the same text in [enhanced_index.ts] and in
    [index.ts]. The promise settles on the first of the ['error'] and
    ['close'] events. *)
Section Bridge.
Variable rt : Runtime.

(** [stderr || 'Python process failed'] *)
Definition stderr_or_default (stderr : string) : string :=
  if String.eqb stderr "" then "Python process failed" else stderr.

Definition on_close (code : option Z) (stdout stderr : string) : Outcome JsValue :=
  if negb (bool_decide (code = Some 0%Z)) then
    Threw (McpError InternalError (stderr_or_default stderr))
  else
    match JSON_parse rt stdout with
    | Some result => Returned result
    | None => Threw (McpError InternalError "Invalid JSON response from Python")
    end.

Definition callPythonHandler (toolName : string) (args : JsValue) : Async JsValue :=
  λ w,
    let w' := count_spawn (emit (EvSpawn toolName args) w) in
    match child_process rt (spawned w) toolName args with
    | ProcError message => (Threw (McpError InternalError message), w')
    | ProcClose code stdout stderr => (on_close code stdout stderr, w')
    end.

(** [error.message] of an [Error] instance. *)
Definition message_of (error : JsThrown) : option string :=
  match error with
  | McpError code message => Some (McpError_message rt code message)
  | JsError message => Some message
  | NonError _ => None
  end.
End Bridge.

(** ** Reading the progress token *)

(** [args.progress_token as string | undefined]. The cast checks nothing
    when the program runs. The handlers are modelled for the tokens that
    the declared type and the [type: 'string'] of the tools' input schemas
    admit, a string or [undefined]: a token of another type, which the
    source would use as it is when it is truthy, is read here as
    [undefined], and the properties that speak of a token take it to be a
    string. *)
Definition as_string (v : JsValue) : option string :=
  match v with JStr s => Some s | _ => None end.

(** [if (progressToken) { body }] *)
Definition if_token (progressToken : option string) (body : string → Async unit)
    : Async unit :=
  match progressToken with
  | Some t => when (negb (String.eqb t "")) (body t)
  | None => ret tt
  end.

(** [progressToken || fallback] *)
Definition token_or (progressToken : option string) (fallback : string) : string :=
  match progressToken with
  | Some t => if String.eqb t "" then fallback else t
  | None => fallback
  end.

Definition is_streaming_tool (toolName : string) : bool :=
  String.eqb toolName "create_streaming_workflow"
  || String.eqb toolName "start_streaming_chat".

(** ** More of what the process and the libraries provide *)

(** A number produced by [parseInt]: [NaN] or an integer. *)
Inductive JsInt : Type :=
| NaN
| Int (z : Z).

(** [JSON.stringify(value, null, 2)], [new Date(ms).toISOString()],
    [process.hrtime()], [process.cpuUsage()] and [parseInt(text, 10)]. *)
Record Host : Type := mkHost {
  JSON_stringify : JsValue → string;
  toISOString : N → string;
  process_hrtime : JsValue;
  process_cpuUsage : JsValue;
  parseInt : string → JsInt
}.

(** [String(v)], also what a template literal inserts for [v]: fixed by
    the language for strings, [undefined], [null] and booleans, left to
    the runtime for the other values. *)
Definition to_String (rt : Runtime) (v : JsValue) : string :=
  match v with
  | JStr s => s
  | JUndefined => "undefined"
  | JNull => "null"
  | JBool true => "true"
  | JBool false => "false"
  | _ => String_of rt v
  end.

(** [v === text] for a string literal [text]. *)
Definition is_string (v : JsValue) (text : string) : bool :=
  match v with
  | JStr s => String.eqb s text
  | _ => false
  end.

(** [n || fallback] for an optional number: [undefined], [NaN] and [0]
    are falsy. *)
Definition int_or (n : option JsInt) (fallback : Z) : Z :=
  match n with
  | Some (Int z) => if Z.eqb z 0 then fallback else z
  | _ => fallback
  end.

(** [interface TransportConfig], the same in both files. *)
Record TransportConfig : Type := mkTransportConfig {
  type : string;
  port : option JsInt;
  host : option string
}.

(** What [main] starts. *)
Inductive Startup : Type :=
| RunWithSSE (port : Z) (host : string)
| RunWithStdio.

(** An entry of the [PROMPTS] table and one of its [arguments]. *)
Record PromptArgument : Type := mkPromptArgument {
  argument_name : string;
  argument_description : string;
  required : bool
}.

Record Prompt : Type := mkPrompt {
  prompt_name : string;
  prompt_description : string;
  prompt_arguments : list PromptArgument
}.

(** The result of [GetPrompt]: one user message with a text content. *)
Definition prompt_result (text : string) : JsValue :=
  JObj [("messages",
         JArr [JObj [("role", JStr "user");
                     ("content", JObj [("type", JStr "text");
                                       ("text", JStr text)])]])].

(** The result of a resource read: one JSON content for [uri]. *)
Definition resource_contents (uri text : string) : JsValue :=
  JObj [("contents",
         JArr [JObj [("uri", JStr uri);
                     ("mimeType", JStr "application/json");
                     ("text", JStr text)]])].

(** Which connection's [handlePostMessage] a [POST /message] reached. *)
Inductive Routing : Type :=
| NotRouted
| RoutedTo (transport : SSEServerTransport).

(** ** [src/enhanced_index.ts] *)
Module Enhanced.
Section Server.
Variable rt : Runtime.

Definition progress_message (progressToken : string) (progress : Z)
    (message : string) : JsonRpc :=
  mkJsonRpc "2.0" "notifications/progress"
    [("progressToken", JStr progressToken);
     ("progress", JNum progress);
     ("message", JStr message);
     ("timestamp", JStr (Date_toISOString rt))].

Definition sendProgressNotification (progressToken : string) (progress : Z)
    (message : string) : Async unit :=
  await transports <- get sseTransports;
  for_of transports (λ st,
    try_catch
      (transport_send st.1 st.2 (progress_message progressToken progress message))
      (λ error, console_error "Error sending progress notification:" (Some error))).

(** [error instanceof Error ? error.message : String(error)] *)
Definition errorMessage (error : JsThrown) : string :=
  match message_of rt error with
  | Some message => message
  | None => match error with NonError v => to_String rt v | _ => "" end
  end.

Definition getResourceData (uri : string) : Async JsValue :=
  try_catch
    (if String.eqb uri "autogen://system/metrics" then
       await connections <- get (λ w, Map_size (sseTransports w));
       await subscriptions <- get (λ w, size (subscribers w));
       await tokens <- get (λ w, size (progressTokens w));
       ret (JObj [("timestamp", JStr (Date_toISOString rt));
                  ("uptime", process_uptime rt);
                  ("memory", process_memoryUsage rt);
                  ("sseConnections", JNum (Z.of_nat connections));
                  ("activeSubscriptions", JNum (Z.of_nat subscriptions));
                  ("progressTokens", JNum (Z.of_nat tokens))])
     else
       await result <- callPythonHandler rt "get_resource" (JObj [("uri", JStr uri)]);
       ret result)
    (λ error, ret (JObj [("error", JStr (errorMessage error))])).

Definition resource_message (uri : string) (data : JsValue) : JsonRpc :=
  mkJsonRpc "2.0" "notifications/resource_updated"
    [("uri", JStr uri);
     ("data", data);
     ("timestamp", JStr (Date_toISOString rt))].

(** [uri] comes untyped from the tool arguments; the set holds strings
    only, so [has] answers [false] for anything else. *)
Definition notifyResourceUpdate (uri data : JsValue) : Async unit :=
  match uri with
  | JStr u =>
      await subscribed <- get (λ w, bool_decide (u ∈ subscribers w));
      when subscribed
        (await transports <- get sseTransports;
         for_of transports (λ st,
           try_catch
             (await payload <- (if truthy data then ret data else getResourceData u);
              transport_send st.1 st.2 (resource_message u payload))
             (λ error,
                console_error "Error sending resource update notification:"
                  (Some error))))
  | _ => ret tt
  end.

Definition handleResourceBroadcast (args : list (string * JsValue)) : Async JsValue :=
  let uri := prop "uri" args in
  let change_type := prop "change_type" args in
  let data := prop "data" args in
  run notifyResourceUpdate uri data;
  run update (with_lastResourceUpdate (Date_now rt));
  await subscriptions <- get (λ w, size (subscribers w));
  ret (JObj [("success", JBool true);
             ("uri", uri);
             ("change_type", change_type);
             ("subscribers", JNum (Z.of_nat subscriptions));
             ("timestamp", JStr (Date_toISOString rt))]).

Definition streaming_message (progressToken : option string) (result : JsValue)
    : JsonRpc :=
  mkJsonRpc "2.0" "notifications/progress"
    [("progressToken", JStr (token_or progressToken "streaming"));
     ("progress", JNum 75);
     ("message", JStr "Streaming updates...");
     ("data", result)].

Definition handleStreamingTool (toolName : string) (args : list (string * JsValue))
    (progressToken : option string) : Async JsValue :=
  run if_token progressToken (λ t,
        sendProgressNotification t 25 "Initializing streaming...");
  await result <- callPythonHandler rt toolName (JObj args);
  await transports <- get sseTransports;
  run when (truthy (prop "streaming" args) && bool_decide (0 < Map_size transports))
        (for_of transports (λ st,
           transport_send st.1 st.2 (streaming_message progressToken result)));
  run if_token progressToken (λ t,
        sendProgressNotification t 100 "Streaming completed");
  ret result.

(** The request of a [tools/call]: [request.params.name] and
    [request.params.arguments], an object when present. *)
Record CallToolRequest : Type := mkCallToolRequest {
  name : string;
  arguments : option (list (string * JsValue))
}.

(** [request.params.arguments || {}] *)
Definition args_of (request : CallToolRequest) : list (string * JsValue) :=
  default [] (arguments request).

Definition progressToken_of (request : CallToolRequest) : option string :=
  as_string (prop "progress_token" (args_of request)).

(** The first statement of the [try] block: the token is recorded and
    the initial notification is sent. *)
Definition begin_progress (toolName : string) (progressToken : option string)
    : Async unit :=
  if_token progressToken (λ t,
    run update (with_progressTokens (insert t toolName));
    sendProgressNotification t 0 ("Starting " ++ toolName ++ "...")).

(** The body of the [try] block of the tool-call handler. *)
Definition call_tool_try (request : CallToolRequest) : Async JsValue :=
  let toolName := name request in
  let args := args_of request in
  let progressToken := progressToken_of request in
  run begin_progress toolName progressToken;
  if is_streaming_tool toolName then
    handleStreamingTool toolName args progressToken
  else if String.eqb toolName "broadcast_resource_update" then
    handleResourceBroadcast args
  else
    run if_token progressToken (λ t,
          sendProgressNotification t 50 ("Processing " ++ toolName ++ "..."));
    await result <- callPythonHandler rt toolName (JObj args);
    run if_token progressToken (λ t,
          run sendProgressNotification t 100 ("Completed " ++ toolName);
          update (with_progressTokens (delete t)));
    ret result.

(** The [catch] block of the tool-call handler. *)
Definition call_tool_catch (request : CallToolRequest) (error : JsThrown)
    : Async JsValue :=
  let toolName := name request in
  let progressToken := progressToken_of request in
  let errorMessage := errorMessage error in
  run if_token progressToken (λ t,
        run sendProgressNotification t (-1)
              ("Error in " ++ toolName ++ ": " ++ errorMessage);
        update (with_progressTokens (delete t)));
  throw error.

(** The handler registered for [CallToolRequestSchema]. *)
Definition call_tool (request : CallToolRequest) : Async JsValue :=
  try_catch (call_tool_try request) (call_tool_catch request).

(** The handlers registered for [SubscribeRequestSchema] and
    [UnsubscribeRequestSchema]. *)
Definition subscribe (uri : string) : Async JsValue :=
  run update (with_subscribers (λ s, {[uri]} ∪ s));
  run notifyResourceUpdate (JStr uri) JUndefined;
  ret (JObj []).

Definition unsubscribe (uri : string) : Async JsValue :=
  run update (with_subscribers (λ s, s ∖ {[uri]}));
  ret (JObj []).

(** [req.query.sessionId as string || `session_${Date.now()}`] *)
Definition sessionId_of (query : option string) : string :=
  token_or query ("session_" ++ decimal (Date_now rt)).

(** [res.status(status).json(body)]. [respond_throws] is what Express
    throws from it, if it throws: it does once the head of the response
    has been written, and then nothing is answered. *)
Definition respond (respond_throws : option JsThrown) (status : nat) (body : JsValue)
    : Async unit :=
  match respond_throws with
  | Some e => throw e
  | None => update (emit (EvResponse status body))
  end.

(** The [GET /sse] route. [transport] is the freshly built
    [SSEServerTransport]; [setup_throws] is what
    [await this.server.connect(transport); await transport.start()]
    throws, if it throws; [respond_throws] is what the answer of the
    [catch] block throws, if it throws. An error that leaves the [catch]
    block rejects the handler. *)
Definition get_sse (query : option string) (transport : SSEServerTransport)
    (setup_throws respond_throws : option JsThrown) : Async unit :=
  let sessionId := sessionId_of query in
  try_catch
    (run update (with_sseTransports (Map_set sessionId transport));
     run match setup_throws with
         | Some e => throw e
         | None => ret tt
         end;
     console_error ("SSE transport started for session: " ++ sessionId) None)
    (λ error,
       run console_error "Error setting up SSE transport:" (Some error);
       respond respond_throws 500
         (JObj [("error", JStr "Failed to establish SSE connection")])).

(** [transport.onclose] and [transport.onerror] of a registered session. *)
Definition onclose (sessionId : string) : Async unit :=
  run update (with_sseTransports (Map_delete sessionId));
  console_error ("SSE transport closed for session: " ++ sessionId) None.

Definition onerror (sessionId : string) (error : JsThrown) : Async unit :=
  run console_error ("SSE transport error for session " ++ sessionId ++ ":")
        (Some error);
  update (with_sseTransports (Map_delete sessionId)).
(** *** Resources, prompts, messages and start-up *)

Variable hs : Host.

(** The handler registered for [ReadResourceRequestSchema]. *)
Definition read_resource (uri : string) : Async JsValue :=
  if String.eqb uri "autogen://system/metrics" then
    await connections <- get (λ w, Map_size (sseTransports w));
    await subscriptions <- get (λ w, size (subscribers w));
    await tokens <- get (λ w, size (progressTokens w));
    await updated <- get lastResourceUpdate;
    ret (resource_contents uri
           (JSON_stringify hs
              (JObj [("timestamp", JStr (Date_toISOString rt));
                     ("uptime", process_uptime rt);
                     ("memory", process_memoryUsage rt);
                     ("sseConnections", JNum (Z.of_nat connections));
                     ("activeSubscriptions", JNum (Z.of_nat subscriptions));
                     ("progressTokens", JNum (Z.of_nat tokens));
                     ("lastResourceUpdate", JStr (toISOString hs updated));
                     ("performance",
                      JObj [("eventLoopDelay", process_hrtime hs);
                            ("cpuUsage", process_cpuUsage hs)])])))
  else
    await result <- callPythonHandler rt "get_resource" (JObj [("uri", JStr uri)]);
    ret (resource_contents uri (JSON_stringify hs result)).

(** [Object.values(PROMPTS)] *)
Definition PROMPTS : list Prompt :=
  [
   mkPrompt "autogen-workflow"
     "Create a sophisticated multi-agent AutoGen workflow with real-time progress tracking"
     [
       mkPromptArgument "task_description"
         "Detailed description of the task to accomplish"
         true;
       mkPromptArgument "agent_count"
         "Number of agents to create (2-10)"
         false;
       mkPromptArgument "workflow_type"
         "Type of workflow (sequential, group_chat, hierarchical, swarm)"
         false;
       mkPromptArgument "streaming"
         "Enable real-time streaming of agent conversations"
         false;
       mkPromptArgument "quality_checks"
         "Enable multi-stage quality validation"
         false
     ];
   mkPrompt "code-review"
     "Set up agents for collaborative code review with streaming feedback"
     [
       mkPromptArgument "code"
         "Code to review"
         true;
       mkPromptArgument "language"
         "Programming language (auto-detected if not specified)"
         false;
       mkPromptArgument "focus_areas"
         "Specific areas to focus on (security, performance, readability, testing)"
         false;
       mkPromptArgument "severity_level"
         "Review severity (basic, thorough, comprehensive)"
         false;
       mkPromptArgument "live_feedback"
         "Enable real-time streaming feedback"
         false
     ];
   mkPrompt "research-analysis"
     "Create research and analysis workflow with streaming progress updates"
     [
       mkPromptArgument "topic"
         "Research topic or question"
         true;
       mkPromptArgument "depth"
         "Analysis depth (basic, detailed, comprehensive, exhaustive)"
         false;
       mkPromptArgument "sources"
         "Preferred research sources"
         false;
       mkPromptArgument "output_format"
         "Output format (report, presentation, analysis, summary)"
         false;
       mkPromptArgument "real_time_updates"
         "Enable streaming progress updates"
         false
     ];
   mkPrompt "creative-collaboration"
     "Set up creative agents for collaborative content generation"
     [
       mkPromptArgument "project_type"
         "Type of creative project (story, article, script, marketing)"
         true;
       mkPromptArgument "tone"
         "Desired tone and style"
         false;
       mkPromptArgument "target_audience"
         "Target audience description"
         false;
       mkPromptArgument "length"
         "Desired length or scope"
         false;
       mkPromptArgument "collaborative_editing"
         "Enable real-time collaborative editing"
         false
     ];
   mkPrompt "problem-solving"
     "Create a problem-solving team with specialized agents"
     [
       mkPromptArgument "problem_statement"
         "Clear description of the problem to solve"
         true;
       mkPromptArgument "domain"
         "Problem domain (technical, business, creative, analytical)"
         false;
       mkPromptArgument "constraints"
         "Any constraints or limitations"
         false;
       mkPromptArgument "solution_format"
         "Desired solution format"
         false;
       mkPromptArgument "brainstorming_mode"
         "Enable real-time brainstorming with live updates"
         false
     ]
  ].

(** The handler registered for [ListPromptsRequestSchema]. *)
Definition list_prompts : list Prompt := PROMPTS.

(** The handler registered for [GetPromptRequestSchema]: it returns the
    prompt or throws. *)
Definition get_prompt (promptName : string)
    (arguments : option (list (string * JsValue))) : Outcome JsValue :=
  let args := default [] arguments in
  if String.eqb promptName "autogen-workflow" then
    let taskDescription := prop "task_description" args in
    let agentCount := js_or (prop "agent_count" args) (JStr "3") in
    let workflowType := js_or (prop "workflow_type" args) (JStr "group_chat") in
    let streaming :=
      is_string (prop "streaming" args) "true" || truthy (prop "streaming" args) in
    let qualityChecks :=
      is_string (prop "quality_checks" args) "true"
      || truthy (prop "quality_checks" args) in
    Returned (prompt_result
      ("Create an enhanced AutoGen workflow for: " ++ to_String rt taskDescription ++ "

Configuration:
- Agents: " ++ to_String rt agentCount ++ " specialized agents
- Workflow Type: " ++ to_String rt workflowType ++ "
- Real-time Streaming: " ++ (if streaming then "enabled" else "disabled") ++ "
- Quality Validation: " ++ (if qualityChecks then "enabled" else "disabled") ++ "

Requirements:
1. Create distinct agents with specialized roles and expertise
2. Configure intelligent agent interactions and routing
3. Set up workflow execution with error handling
4. " ++ (if streaming then "Enable real-time progress streaming"
         else "Use standard execution mode") ++ "
5. " ++ (if qualityChecks then "Implement multi-stage quality validation"
         else "Use basic validation") ++ "

Please provide a complete workflow configuration with agent definitions, interaction patterns, and execution flow."))
  else
    Threw (McpError InvalidRequest ("Unknown prompt: " ++ promptName)).

(** The [POST /message] route. [query] is [req.query.sessionId];
    [handle_throws t] is what [t.handlePostMessage] throws, if it throws;
    [respond_throws] is what the answer of the [catch] block throws, if it
    throws, as it does when [handlePostMessage] had answered before it
    threw. The value returned tells which connection the message reached;
    an error that leaves the [catch] block rejects the handler. *)
Definition post_message (query : option string)
    (handle_throws : SSEServerTransport → option JsThrown)
    (respond_throws : option JsThrown) : Async Routing :=
  await transports <- get sseTransports;
  match query with
  | Some sessionId =>
      if String.eqb sessionId "" || negb (Map_has sessionId transports) then
        run update (emit (EvResponse 400
              (JObj [("error", JStr "Invalid or missing session ID")])));
        ret NotRouted
      else
        match Map_get sessionId transports with
        | Some transport =>
            run try_catch
                  (match handle_throws transport with
                   | Some e => throw e
                   | None => ret tt
                   end)
                  (λ error,
                     run console_error "Error handling POST message:" (Some error);
                     respond respond_throws 500
                       (JObj [("error", JStr "Failed to process message")]));
            ret (RoutedTo transport)
        | None => ret NotRouted
        end
  | None =>
      run update (emit (EvResponse 400
            (JObj [("error", JStr "Invalid or missing session ID")])));
      ret NotRouted
  end.

(** [parseArgs], with the loop over [i] written over the rest of the
    arguments from [args[i]] on: [i + 1 < args.length] says that a second
    element is there, [i++] inside a branch skips it. *)
Fixpoint parse_from (config : TransportConfig) (args : list string)
    : TransportConfig :=
  match args with
  | [] => config
  | arg :: rest =>
      match rest with
      | next :: rest' =>
          if String.eqb arg "--transport" then
            parse_from
              (if String.eqb next "sse" || String.eqb next "stdio"
               then mkTransportConfig next (port config) (host config)
               else config)
              rest'
          else if String.eqb arg "--port" then
            parse_from
              (mkTransportConfig (type config) (Some (parseInt hs next)) (host config))
              rest'
          else if String.eqb arg "--host" then
            parse_from
              (mkTransportConfig (type config) (port config) (Some next))
              rest'
          else parse_from config rest
      | [] => config
      end
  end.

(** [args] is [process.argv.slice(2)]. *)
Definition parseArgs (args : list string) : TransportConfig :=
  parse_from (mkTransportConfig "stdio" None None) args.

(** What [main] starts for the given command line. *)
Definition main (args : list string) : Startup :=
  let config := parseArgs args in
  if String.eqb (type config) "sse" then
    RunWithSSE (int_or (port config) 3000) (token_or (host config) "localhost")
  else RunWithStdio.
End Server.
End Enhanced.

(** ** [src/index.ts] *)
Module Index.
Section Server.
Variable rt : Runtime.

(** [progress] is a [number]: an integer literal or the double computed
    by the streaming loop. *)
Definition progress_message (token : string) (progress : JsValue)
    (message : string) : JsonRpc :=
  mkJsonRpc "2.0" "notifications/progress"
    [("progressToken", JStr token);
     ("progress", progress);
     ("total", JNum 100);
     ("message", JStr message)].

(** No [try] around [send] in this file. *)
Definition sendProgressNotification (token : string) (progress : JsValue)
    (message : string) : Async unit :=
  await transports <- get sseTransports;
  for_of transports (λ st,
    transport_send st.1 st.2 (progress_message token progress message)).

Definition steps : N := 10.

(** The values of [i] in [for (let i = 0; i <= steps; i++)]. *)
Definition step_indices : list N := N.of_nat <$> seq 0 (S (N.to_nat steps)).

Definition streaming_update (toolName : string) (args : list (string * JsValue))
    : JsonRpc :=
  mkJsonRpc "2.0" "notifications/streaming_update"
    [("tool", JStr toolName);
     ("progress", JNum 100);
     ("data", JObj args)].

(** The 100 ms pause after each step is not modelled. *)
Definition handleStreamingTool (toolName : string) (args : list (string * JsValue))
    (progressToken : string) : Async JsValue :=
  run for_of step_indices (λ i,
        sendProgressNotification progressToken
          (JDouble (Z.of_N i) (Z.of_N steps) 100)
          ("Step " ++ decimal i ++ "/" ++ decimal steps));
  await transports <- get sseTransports;
  run for_of transports (λ st,
        transport_send st.1 st.2 (streaming_update toolName args));
  ret (JObj [("streaming", JBool true);
             ("completed", JBool true);
             ("tool", JStr toolName)]).

(** [request.params.name], [request.params.arguments] and
    [request.params._meta?.progressToken]. *)
Record CallToolRequest : Type := mkCallToolRequest {
  name : string;
  arguments : option (list (string * JsValue));
  progressToken : JsValue
}.

Definition args_of (request : CallToolRequest) : list (string * JsValue) :=
  default [] (arguments request).

(** [progressToken && typeof progressToken === 'string'] *)
Definition string_token (v : JsValue) : option string :=
  match v with
  | JStr s => if String.eqb s "" then None else Some s
  | _ => None
  end.

Definition if_string_token (v : JsValue) (body : string → Async unit) : Async unit :=
  match string_token v with
  | Some t => body t
  | None => ret tt
  end.

(** The regular tool handling, reached when the streaming branch did
    not return. *)
Definition regular_tool (request : CallToolRequest) : Async JsValue :=
  let toolName := name request in
  let args := args_of request in
  run if_string_token (progressToken request) (λ t,
        sendProgressNotification t (JNum 50) ("Processing " ++ toolName ++ "..."));
  await result <- callPythonHandler rt toolName (JObj args);
  run if_string_token (progressToken request) (λ t,
        run sendProgressNotification t (JNum 100) ("Completed " ++ toolName);
        update (with_progressTokens (delete t)));
  ret result.

Definition call_tool_try (request : CallToolRequest) : Async JsValue :=
  let toolName := name request in
  let args := args_of request in
  run if_string_token (progressToken request) (λ t,
        run update (with_progressTokens (insert t toolName));
        sendProgressNotification t (JNum 0) ("Starting " ++ toolName ++ "..."));
  if is_streaming_tool toolName then
    match string_token (progressToken request) with
    | Some t => handleStreamingTool toolName args t
    | None => regular_tool request
    end
  else regular_tool request.

(** [error instanceof Error ? error.message : 'Unknown error'] *)
Definition errorMessage (error : JsThrown) : string :=
  default "Unknown error" (message_of rt error).

Definition call_tool_catch (request : CallToolRequest) (error : JsThrown)
    : Async JsValue :=
  let toolName := name request in
  run if_string_token (progressToken request) (λ t,
        run sendProgressNotification t (JNum (-1))
              ("Error in " ++ toolName ++ ": " ++ errorMessage error);
        update (with_progressTokens (delete t)));
  throw error.

Definition call_tool (request : CallToolRequest) : Async JsValue :=
  try_catch (call_tool_try request) (call_tool_catch request).
(** *** Resources and prompts *)

Variable hs : Host.

(** [Array.from(this.progressTokens.entries())] mapped to task records.
    The source lists the entries in insertion order, which the map of
    this model does not record: the order of the list below is the
    map's own. *)
Definition active_tasks (tokens : gmap string string) : list JsValue :=
  (λ entry, JObj [("token", JStr entry.1);
                  ("tool", JStr entry.2);
                  ("timestamp", JStr (Date_toISOString rt))])
  <$> map_to_list tokens.

Definition handleResourceDirectly (uri : string) : Async JsValue :=
  if String.eqb uri "autogen://agents/list" then
    try_catch
      (await result <- callPythonHandler rt "get_resource" (JObj [("uri", JStr uri)]);
       ret (resource_contents uri (JSON_stringify hs result)))
      (λ error,
         ret (resource_contents uri
                (JSON_stringify hs (JObj [("error", JStr "Failed to fetch agents")]))))
  else if String.eqb uri "autogen://progress/status" then
    await tokens <- get progressTokens;
    await connections <- get (λ w, Map_size (sseTransports w));
    ret (resource_contents uri
           (JSON_stringify hs
              (JObj [("active_tasks", JArr (active_tasks tokens));
                     ("total_active", JNum (Z.of_nat (size tokens)));
                     ("sse_connections", JNum (Z.of_nat connections))])))
  else if String.eqb uri "autogen://metrics/performance" then
    await connections <- get (λ w, Map_size (sseTransports w));
    await subscriptions <- get (λ w, size (subscribers w));
    ret (resource_contents uri
           (JSON_stringify hs
              (JObj [("uptime", process_uptime rt);
                     ("memory_usage", process_memoryUsage rt);
                     ("active_connections", JNum (Z.of_nat connections));
                     ("subscribers", JNum (Z.of_nat subscriptions))])))
  else
    try_catch
      (await result <- callPythonHandler rt "get_resource" (JObj [("uri", JStr uri)]);
       ret (resource_contents uri (JSON_stringify hs result)))
      (λ error, throw (McpError InvalidRequest ("Unknown resource: " ++ uri))).

(** The handler registered for [ReadResourceRequestSchema]. *)
Definition read_resource (uri : string) : Async JsValue :=
  handleResourceDirectly uri.

(** [Object.values(PROMPTS)] *)
Definition PROMPTS : list Prompt :=
  [
   mkPrompt "autogen-workflow"
     "Create a sophisticated multi-agent AutoGen workflow"
     [
       mkPromptArgument "task_description"
         "Detailed description of the task to accomplish"
         true;
       mkPromptArgument "agent_count"
         "Number of agents to create (2-10)"
         false;
       mkPromptArgument "workflow_type"
         "Type of workflow (sequential, group_chat, hierarchical, swarm)"
         false;
       mkPromptArgument "streaming"
         "Enable real-time streaming of results"
         false
     ];
   mkPrompt "code-review"
     "Set up agents for comprehensive collaborative code review"
     [
       mkPromptArgument "code"
         "Code to review"
         true;
       mkPromptArgument "language"
         "Programming language"
         false;
       mkPromptArgument "focus_areas"
         "Specific areas to focus on"
         false
     ];
   mkPrompt "research-analysis"
     "Create advanced research and analysis workflow"
     [
       mkPromptArgument "topic"
         "Research topic or question"
         true;
       mkPromptArgument "depth"
         "Analysis depth (basic, detailed, comprehensive)"
         false
     ]
  ].

Definition list_prompts : list Prompt := PROMPTS.

(** The handler registered for [GetPromptRequestSchema]: it returns the
    prompt or throws. *)
Definition get_prompt (promptName : string)
    (arguments : option (list (string * JsValue))) : Outcome JsValue :=
  let args := default [] arguments in
  if String.eqb promptName "autogen-workflow" then
    let taskDescription := prop "task_description" args in
    let agentCount := js_or (prop "agent_count" args) (JStr "3") in
    let workflowType := js_or (prop "workflow_type" args) (JStr "group_chat") in
    let streaming := String.eqb (to_String rt (prop "streaming" args)) "true" in
    Returned (prompt_result
      ("Create an enhanced AutoGen workflow for: " ++ to_String rt taskDescription ++ "

Configuration:
- Agent count: " ++ to_String rt agentCount ++ "
- Workflow type: " ++ to_String rt workflowType ++ "
- Streaming: " ++ (if streaming then "enabled" else "disabled") ++ "

Create specialized agents with distinct roles and configure advanced interactions."))
  else if String.eqb promptName "code-review" then
    let code := prop "code" args in
    let language := js_or (prop "language" args) (JStr "auto-detect") in
    let focusAreas := js_or (prop "focus_areas" args) (JStr "all areas") in
    Returned (prompt_result
      ("Perform code review for:

```" ++ to_String rt language ++ "
" ++ to_String rt code ++ "
```

Focus areas: " ++ to_String rt focusAreas ++ "

Set up specialized reviewer agents for comprehensive analysis."))
  else if String.eqb promptName "research-analysis" then
    let topic := prop "topic" args in
    let depth := js_or (prop "depth" args) (JStr "detailed") in
    Returned (prompt_result
      ("Create " ++ to_String rt depth ++ " research and analysis for: "
       ++ to_String rt topic ++ "

Deploy specialized research agents for comprehensive coverage."))
  else
    Threw (McpError InvalidRequest ("Unknown prompt: " ++ promptName)).

(** The handlers registered for [SubscribeRequestSchema] and
    [UnsubscribeRequestSchema]: no notification is sent. *)
Definition subscribe (uri : string) : Async JsValue :=
  run update (with_subscribers (λ s, {[uri]} ∪ s));
  ret (JObj [("success", JBool true)]).

Definition unsubscribe (uri : string) : Async JsValue :=
  run update (with_subscribers (λ s, s ∖ {[uri]}));
  ret (JObj [("success", JBool true)]).
End Server.
End Index.

(** ** Concrete runtimes and worlds used in the examples *)

(** A parser that knows three JSON texts is enough to run the examples.
    The message of an [McpError] is the one the SDK builds,
    [`MCP error ${code}: ${message}`]. *)
Definition sample_parse (text : string) : option JsValue :=
  if String.eqb text "null" then Some JNull
  else if String.eqb text "true" then Some (JBool true)
  else if String.eqb text "{}" then Some (JObj [])
  else None.

Definition sample_runtime (backend : nat → string → JsValue → ProcOutcome)
    : Runtime :=
  mkRuntime sample_parse
            (λ code message, "MCP error " ++ integer code ++ ": " ++ message)
            (λ _, "[object]")
            backend
            1700000000000%N
            "2023-11-14T22:13:20.000Z"
            (JNum 1)
            (JObj []).

(** A backend that always exits with status 0 and prints [{}]. *)
Definition backend_ok : nat → string → JsValue → ProcOutcome :=
  λ _ _ _, ProcClose (Some 0%Z) "{}" "".

(** A backend that prints [true] when its argument object has a
    [progress_token] field and [null] otherwise. *)
Definition backend_reads_token : nat → string → JsValue → ProcOutcome :=
  λ _ _ args,
    match args with
    | JObj fields =>
        if truthy (prop "progress_token" fields)
        then ProcClose (Some 0%Z) "true" ""
        else ProcClose (Some 0%Z) "null" ""
    | _ => ProcClose (Some 0%Z) "null" ""
    end.

(** A backend that exits with status 2 and the diagnostic on stderr. *)
Definition backend_agent_not_found : nat → string → JsValue → ProcOutcome :=
  λ _ _ _, ProcClose (Some 2%Z) "" "agent not found".

Definition healthy (l : string) : SSEServerTransport := mkTransport l None.
Definition broken (l : string) : SSEServerTransport :=
  mkTransport l (Some (JsError "Not connected")).

Definition world_of (transports : list (string * SSEServerTransport)) : World :=
  mkWorld transports ∅ ∅ 0%N 0 [].

(** ** Requests and worlds of the scenarios *)

Definition rt_ok : Runtime := sample_runtime backend_ok.
Definition rt_agent_not_found : Runtime := sample_runtime backend_agent_not_found.

Definition one_client : World := world_of [("s1", healthy "client")].
Definition two_clients_first_closed : World :=
  world_of [("s1", broken "gone"); ("s2", healthy "client")].

Definition execute_workflow_t1 : Enhanced.CallToolRequest :=
  Enhanced.mkCallToolRequest "execute_workflow" (Some [("progress_token", JStr "t1")]).

Definition streaming_workflow_t2 : Enhanced.CallToolRequest :=
  Enhanced.mkCallToolRequest "create_streaming_workflow"
    (Some [("progress_token", JStr "t2"); ("streaming", JBool true)]).

Definition broadcast_t3 : Enhanced.CallToolRequest :=
  Enhanced.mkCallToolRequest "broadcast_resource_update"
    (Some [("progress_token", JStr "t3");
           ("uri", JStr "autogen://agents/list");
           ("change_type", JStr "updated")]).

Definition index_streaming_workflow (progressToken : JsValue) : Index.CallToolRequest :=
  Index.mkCallToolRequest "create_streaming_workflow"
    (Some [("streaming", JBool true)]) progressToken.

(** A world in which token ["t1"] is already tracked for another tool. *)
Definition t1_in_flight : World :=
  mkWorld [("s1", healthy "client")] ∅ {["t1" := "create_agent"]} 0%N 0 [].

(** A [parseInt] that reads the two port numbers of the examples. *)
Definition sample_parseInt (text : string) : JsInt :=
  if String.eqb text "8080" then Int 8080
  else if String.eqb text "0" then Int 0
  else NaN.

Definition sample_host : Host :=
  mkHost (λ _, "{}") (λ _, "1970-01-01T00:00:00.000Z") (JArr []) (JObj [])
         sample_parseInt.

(** What the route [GET /sse] meets with the SDK the repository asks for:
    [connect] has started the transport, which wrote the head of the
    response, so that the second [start] throws and Express refuses to
    answer. *)
Definition already_started : JsThrown :=
  JsError "SSEServerTransport already started! If using Server class, note that connect() calls start() automatically.".

Definition headers_sent : JsThrown :=
  JsError "Cannot set headers after they are sent to the client".

(** A closed and an open connection, with one subscribed resource. *)
Definition subscribed_clients : World :=
  mkWorld [("s1", broken "gone"); ("s2", healthy "client")]
          {["autogen://agents/list"]} ∅ 0%N 0 [].

(** * Vocabulary of the properties *)

(** Appending events to the trace. *)
Definition emit_all (evs : list Event) (w : World) : World :=
  mkWorld (sseTransports w) (subscribers w) (progressTokens w)
          (lastResourceUpdate w) (spawned w) (trace w ++ evs).

(** The progress value carried by a send attempt. *)
Definition progress_of_event (ev : Event) : option JsValue :=
  match ev with
  | EvDelivered _ msg | EvSendFailed _ msg _ => Some (prop "progress" (params msg))
  | _ => None
  end.

(** The messages delivered to one session, in order. *)
Definition delivered_to (session : string) (evs : list Event) : list JsonRpc :=
  omap (λ ev, match ev with
              | EvDelivered s msg => if String.eqb s session then Some msg else None
              | _ => None
              end) evs.

(** The backend invocations, in order. *)
Definition spawns (evs : list Event) : list (string * JsValue) :=
  omap (λ ev, match ev with
              | EvSpawn toolName args => Some (toolName, args)
              | _ => None
              end) evs.

(** What one guarded send attempt leaves in the trace. *)
Definition caught_attempt (text : string) (msg : JsonRpc)
    (st : string * SSEServerTransport) : list Event :=
  match send_throws st.2 with
  | None => [EvDelivered st.1 msg]
  | Some e => [EvSendFailed st.1 msg e; EvConsoleError text (Some e)]
  end.

(** One guarded attempt per registered connection, in registration order. *)
Definition broadcast_events (text : string) (msg : JsonRpc)
    (transports : list (string * SSEServerTransport)) : list Event :=
  concat (caught_attempt text msg <$> transports).

(** [frame touched P w w']: from [w] to [w'] the connections and the
    subscriptions are the same, the progress tokens outside [touched] are
    the same, and the trace grew by events that satisfy [P]. *)
Record frame (touched : string → Prop) (P : Event → Prop) (w w' : World) : Prop :=
  mkFrame {
    frame_transports : sseTransports w' = sseTransports w;
    frame_subscribers : subscribers w' = subscribers w;
    frame_tokens : ∀ k, ¬ touched k → progressTokens w' !! k = progressTokens w !! k;
    frame_trace : ∃ evs, trace w' = (trace w ++ evs)%list ∧ Forall P evs
  }.

(** A computation keeps the frame when its final state is always framed
    by its initial state, whether it returns or throws. *)
Definition keeps (touched : string → Prop) (P : Event → Prop) {A} (c : Async A)
    : Prop :=
  ∀ w, frame touched P w (c w).2.

(** No constraint on the events. *)
Definition any_event : Event → Prop := λ _, True.

(** A send attempt that does not carry the error progress value [-1]. *)
Definition no_error_progress (ev : Event) : Prop :=
  progress_of_event ev ≠ Some (JNum (-1)).

(** What [sendProgressNotification] logs next to a send error. *)
Definition progress_text : string := "Error sending progress notification:".

(** A computation is silent when it always returns, changes nothing but
    the progress tokens and the trace, and invokes no backend. *)
Definition silent (c : Async unit) : Prop :=
  ∀ w, ∃ evs f, c w = (Returned tt, emit_all evs (with_progressTokens f w))
                ∧ spawns evs = [].

(** [part] occurs in [text]. *)
Definition contains (text part : string) : Prop :=
  ∃ before after, text = before ++ part ++ after.

(** A backend invocation with the [progress_token] field of its argument
    object left out. *)
Definition without_token (call : string * JsValue) : string * JsValue :=
  match call.2 with
  | JObj fields => (call.1, JObj (filter (λ kv, kv.1 ≠ "progress_token") fields))
  | _ => call
  end.

(** Two worlds look the same to everything but progress reporting: same
    connections, subscriptions, update stamp and spawn counter, and the
    same backend invocations so far, up to the [progress_token] field. *)
Record sim (w1 w2 : World) : Prop := mkSim {
  sim_transports : sseTransports w1 = sseTransports w2;
  sim_subscribers : subscribers w1 = subscribers w2;
  sim_lastResourceUpdate : lastResourceUpdate w1 = lastResourceUpdate w2;
  sim_spawned : spawned w1 = spawned w2;
  sim_spawns : without_token <$> spawns (trace w1) = without_token <$> spawns (trace w2)
}.

(** Outcomes related by [E] on returned values, equal on thrown ones. *)
Definition outcome_rel {A} (E : A → A → Prop) (o1 o2 : Outcome A) : Prop :=
  match o1, o2 with
  | Returned a, Returned b => E a b
  | Threw e1, Threw e2 => e1 = e2
  | _, _ => False
  end.

Definition agree_by {A} (E : A → A → Prop) (c1 c2 : Async A) : Prop :=
  ∀ w1 w2, sim w1 w2 →
    outcome_rel E (c1 w1).1 (c2 w2).1 ∧ sim (c1 w1).2 (c2 w2).2.

(** The progress values delivered to a session, in order. *)
Definition progress_delivered_to (session : string) (evs : list Event) : list JsValue :=
  (λ msg, prop "progress" (params msg)) <$> delivered_to session evs.

(** A progress notification as the specification writes it:
    [progress(token, value, message)]. *)
Definition notification_of (msg : JsonRpc) : JsValue * JsValue * JsValue :=
  (prop "progressToken" (params msg),
   prop "progress" (params msg),
   prop "message" (params msg)).

(** The streaming scenario as the specification words it, read on the
    messages delivered to the one open connection: progress 0, progress
    25, some step notifications, one [streaming_update] whose data is
    the result payload, and last a progress-100 notification. (That the
    step percentages do not decrease is left out: what remains is
    already false on the code.) *)
Definition streaming_scenario (delivered : list JsonRpc) (result : JsValue) : Prop :=
  ∃ first second steps chunk last,
    delivered = first :: second :: (steps ++ [chunk; last])%list ∧
    prop "progress" (params first) = JNum 0 ∧
    prop "progress" (params second) = JNum 25 ∧
    Forall (λ msg, method msg = "notifications/progress") steps ∧
    method chunk = "notifications/streaming_update" ∧
    prop "data" (params chunk) = result ∧
    method last = "notifications/progress" ∧
    prop "progress" (params last) = JNum 100.

(** ** Vocabulary of the further properties *)

(** The configuration [parseArgs] starts from. *)
Definition default_config : TransportConfig := mkTransportConfig "stdio" None None.

(** The arguments [parseArgs] reacts to. *)
Definition is_flag (arg : string) : bool :=
  String.eqb arg "--transport" || String.eqb arg "--port" || String.eqb arg "--host".

(** No session identifier is registered twice. *)
Definition registry_unique (w : World) : Prop := NoDup (sseTransports w).*1.

(** [w'] is [w] after [n] more backend processes and the events [evs],
    everything else untouched. *)
Definition grown (w w' : World) (n : nat) (evs : list Event) : Prop :=
  w' = mkWorld (sseTransports w) (subscribers w) (progressTokens w)
         (lastResourceUpdate w) (spawned w + n) (trace w ++ evs).

(** The backend invocation behind a resource. *)
Definition get_resource_call (uri : string) : string * JsValue :=
  ("get_resource", JObj [("uri", JStr uri)]).

(** Whether a handler returned. *)
Definition is_returned {A} (o : Outcome A) : bool :=
  match o with Returned _ => true | Threw _ => false end.

(** Every registered connection accepts sends. *)
Definition all_healthy (transports : list (string * SSEServerTransport)) : Prop :=
  Forall (λ st, send_throws st.2 = None) transports.

(** One delivery per registered connection, in registration order. *)
Definition deliveries (msg : JsonRpc) (transports : list (string * SSEServerTransport))
    : list Event :=
  (λ st, EvDelivered st.1 msg) <$> transports.

(** * Reasoning about handler runs *)

(** ** Events appended to the trace *)

Lemma emit_all_nil w : emit_all [] w = w.
Proof. destruct w; unfold emit_all; simpl. by rewrite app_nil_r. Qed.

Lemma emit_all_app evs evs' w :
  emit_all evs' (emit_all evs w) = emit_all (evs ++ evs')%list w.
Proof. unfold emit_all; simpl. by rewrite app_assoc. Qed.

Lemma emit_as_emit_all ev w : emit ev w = emit_all [ev] w.
Proof. reflexivity. Qed.

(** ** Frames

    A frame is kept along sequencing, handlers, loops and guards. *)
Section Frames.
Context (touched : string → Prop) (P : Event → Prop).

#[local] Abbreviation R := (frame touched P).

Lemma frame_refl w : R w w.
Proof.
  split; try done. exists []. by rewrite app_nil_r.
Qed.

Lemma frame_trans w1 w2 w3 : R w1 w2 → R w2 w3 → R w1 w3.
Proof.
  intros [Ht1 Hs1 Hk1 (e1 & He1 & Hp1)] [Ht2 Hs2 Hk2 (e2 & He2 & Hp2)].
  split.
  - congruence.
  - congruence.
  - intros k Hk. rewrite Hk2, Hk1; done.
  - exists (e1 ++ e2)%list. split.
    + rewrite He2, He1. by rewrite app_assoc.
    + by apply Forall_app.
Qed.

Lemma keeps_ret {A} (a : A) : keeps touched P (ret a).
Proof. intros w. apply frame_refl. Qed.

Lemma keeps_throw {A} e : keeps touched P (@throw A e).
Proof. intros w. apply frame_refl. Qed.

Lemma keeps_get {A} (f : World → A) : keeps touched P (get f).
Proof. intros w. apply frame_refl. Qed.

Lemma keeps_bind {A B} (c : Async A) (k : A → Async B) :
  keeps touched P c → (∀ a, keeps touched P (k a)) → keeps touched P (bind c k).
Proof.
  intros Hc Hk w. unfold bind. specialize (Hc w).
  destruct (c w) as [[a|e] w']; simpl in *; [|done].
  eapply frame_trans; [exact Hc | apply Hk].
Qed.

Lemma keeps_try_catch {A} (c : Async A) (h : JsThrown → Async A) :
  keeps touched P c → (∀ e, keeps touched P (h e)) →
  keeps touched P (try_catch c h).
Proof.
  intros Hc Hh w. unfold try_catch. specialize (Hc w).
  destruct (c w) as [[a|e] w']; simpl in *; [done|].
  eapply frame_trans; [exact Hc | apply Hh].
Qed.

Lemma keeps_when (b : bool) (c : Async unit) :
  keeps touched P c → keeps touched P (when b c).
Proof. intros Hc. destruct b; simpl; [done | apply keeps_ret]. Qed.

Lemma keeps_if_token tok (body : string → Async unit) :
  (∀ t, tok = Some t → t ≠ "" → keeps touched P (body t)) →
  keeps touched P (if_token tok body).
Proof.
  intros Hb. destruct tok as [t|]; simpl; [|apply keeps_ret].
  destruct (String.eqb_spec t ""); simpl; [apply keeps_ret | by apply Hb].
Qed.

Lemma keeps_for_of {A} (xs : list A) (body : A → Async unit) :
  (∀ x, x ∈ xs → keeps touched P (body x)) → keeps touched P (for_of xs body).
Proof.
  induction xs as [|x xs IH]; intros Hb; simpl; [apply keeps_ret|].
  apply keeps_bind.
  - apply Hb. by left.
  - intros _. apply IH. intros y Hy. apply Hb. by right.
Qed.

Lemma keeps_emit ev : P ev → keeps touched P (update (emit ev)).
Proof.
  intros Hev w. split; try done. exists [ev]. split; [done|]. by constructor.
Qed.

Lemma keeps_console_error text e :
  P (EvConsoleError text e) → keeps touched P (console_error text e).
Proof. apply keeps_emit. Qed.

Lemma keeps_transport_send session t msg :
  P (EvDelivered session msg) → (∀ e, P (EvSendFailed session msg e)) →
  keeps touched P (transport_send session t msg).
Proof.
  intros Hd Hf w. unfold transport_send.
  destruct (send_throws t) as [e|]; simpl.
  - split; try done. exists [EvSendFailed session msg e]. split; [done|].
    constructor; [apply Hf | constructor].
  - split; try done. exists [EvDelivered session msg]. split; [done|].
    by constructor.
Qed.

Lemma keeps_set_token t v :
  touched t → keeps touched P (update (with_progressTokens (insert t v))).
Proof.
  intros Ht w. split; simpl; try done.
  - intros k Hk. rewrite lookup_insert_ne; [done|]. by intros ->.
  - exists []. by rewrite app_nil_r.
Qed.

Lemma keeps_delete_token t :
  touched t → keeps touched P (update (with_progressTokens (delete t))).
Proof.
  intros Ht w. split; simpl; try done.
  - intros k Hk. rewrite lookup_delete_ne; [done|]. by intros ->.
  - exists []. by rewrite app_nil_r.
Qed.

Lemma keeps_lastResourceUpdate z : keeps touched P (update (with_lastResourceUpdate z)).
Proof.
  intros w. split; simpl; try done. exists []. by rewrite app_nil_r.
Qed.

Lemma keeps_callPythonHandler rt toolName args :
  P (EvSpawn toolName args) → keeps touched P (callPythonHandler rt toolName args).
Proof.
  intros Hev w. unfold callPythonHandler.
  assert (R w (count_spawn (emit (EvSpawn toolName args) w))) as HR.
  { split; simpl; try done. exists [EvSpawn toolName args].
    split; [done|]. by constructor. }
  by destruct (child_process rt (spawned w) toolName args).
Qed.
End Frames.

(** ** The guarded broadcasts of [enhanced_index.ts] *)

Section EnhancedBroadcast.
Variable rt : Runtime.

Lemma for_of_caught_send text msg transports w :
  for_of transports (λ st,
    try_catch (transport_send st.1 st.2 msg)
              (λ error, console_error text (Some error))) w
  = (Returned tt, emit_all (broadcast_events text msg transports) w).
Proof.
  revert w. induction transports as [|[session t] rest IH]; intros w.
  - simpl. unfold ret. by rewrite emit_all_nil.
  - simpl. unfold bind at 1, try_catch at 1, transport_send, broadcast_events.
    simpl. unfold caught_attempt at 1. simpl.
    destruct (send_throws t) as [e|]; simpl.
    + unfold console_error, update. rewrite IH.
      by rewrite !emit_as_emit_all, !emit_all_app.
    + rewrite IH. by rewrite !emit_as_emit_all, !emit_all_app.
Qed.

(** A progress broadcast never throws: it attempts every registered
    connection in order and logs the failures. *)
Lemma sendProgressNotification_runs progressToken progress message w :
  Enhanced.sendProgressNotification rt progressToken progress message w
  = (Returned tt,
     emit_all (broadcast_events "Error sending progress notification:"
                 (Enhanced.progress_message rt progressToken progress message)
                 (sseTransports w)) w).
Proof.
  unfold Enhanced.sendProgressNotification, bind, get.
  apply for_of_caught_send.
Qed.
End EnhancedBroadcast.

(** ** Frames of the handlers of [enhanced_index.ts] *)

Section EnhancedFrames.
Variable rt : Runtime.
Context (touched : string → Prop) (P : Event → Prop).
Hypothesis P_log : ∀ text e, P (EvConsoleError text e).
Hypothesis P_spawn : ∀ toolName args, P (EvSpawn toolName args).
Hypothesis P_send : ∀ ev, progress_of_event ev ≠ Some (JNum (-1)) → P ev.

Lemma keeps_sendProgressNotification t progress message :
  progress ≠ (-1)%Z →
  keeps touched P (Enhanced.sendProgressNotification rt t progress message).
Proof.
  intros Hp. unfold Enhanced.sendProgressNotification.
  apply keeps_bind; [apply keeps_get|]. intros transports.
  apply keeps_for_of. intros [session tr] _.
  apply keeps_try_catch.
  - apply keeps_transport_send; [|intros e]; apply P_send; simpl; congruence.
  - intros e. by apply keeps_console_error.
Qed.

Lemma keeps_getResourceData uri : keeps touched P (Enhanced.getResourceData rt uri).
Proof.
  unfold Enhanced.getResourceData. apply keeps_try_catch.
  - destruct (String.eqb uri _).
    + repeat (apply keeps_bind; [apply keeps_get|]; intros ?). apply keeps_ret.
    + apply keeps_bind; [by apply keeps_callPythonHandler|].
      intros ?. apply keeps_ret.
  - intros e. apply keeps_ret.
Qed.

Lemma keeps_notifyResourceUpdate uri data :
  keeps touched P (Enhanced.notifyResourceUpdate rt uri data).
Proof.
  unfold Enhanced.notifyResourceUpdate.
  destruct uri; try apply keeps_ret.
  apply keeps_bind; [apply keeps_get|]. intros subscribed.
  apply keeps_when. apply keeps_bind; [apply keeps_get|]. intros transports.
  apply keeps_for_of. intros [session tr] _. apply keeps_try_catch.
  - apply keeps_bind.
    + destruct (truthy data); [apply keeps_ret | apply keeps_getResourceData].
    + intros payload.
      apply keeps_transport_send; [|intros e]; apply P_send; simpl; congruence.
  - intros e. by apply keeps_console_error.
Qed.

Lemma keeps_handleResourceBroadcast args :
  keeps touched P (Enhanced.handleResourceBroadcast rt args).
Proof.
  unfold Enhanced.handleResourceBroadcast.
  apply keeps_bind; [apply keeps_notifyResourceUpdate|]. intros _.
  apply keeps_bind; [apply keeps_lastResourceUpdate|]. intros _.
  apply keeps_bind; [apply keeps_get|]. intros ?. apply keeps_ret.
Qed.

Lemma keeps_handleStreamingTool toolName args progressToken :
  keeps touched P (Enhanced.handleStreamingTool rt toolName args progressToken).
Proof.
  unfold Enhanced.handleStreamingTool.
  apply keeps_bind.
  { apply keeps_if_token. intros t _ _. by apply keeps_sendProgressNotification. }
  intros _. apply keeps_bind; [by apply keeps_callPythonHandler|]. intros result.
  apply keeps_bind; [apply keeps_get|]. intros transports.
  apply keeps_bind.
  { apply keeps_when, keeps_for_of. intros [session tr] _.
    apply keeps_transport_send; [|intros e]; apply P_send; simpl; congruence. }
  intros _. apply keeps_bind; [|intros _; apply keeps_ret].
  apply keeps_if_token. intros t _ _. by apply keeps_sendProgressNotification.
Qed.

Lemma keeps_begin_progress toolName progressToken :
  (∀ t, progressToken = Some t → touched t) →
  keeps touched P (Enhanced.begin_progress rt toolName progressToken).
Proof.
  intros Ht. unfold Enhanced.begin_progress.
  apply keeps_if_token. intros t Heq _.
  apply keeps_bind; [apply keeps_set_token; auto|]. intros _.
  by apply keeps_sendProgressNotification.
Qed.

Lemma keeps_call_tool_try request :
  (∀ t, Enhanced.progressToken_of request = Some t → touched t) →
  keeps touched P (Enhanced.call_tool_try rt request).
Proof.
  intros Ht. unfold Enhanced.call_tool_try.
  apply keeps_bind; [by apply keeps_begin_progress|]. intros _.
  destruct (is_streaming_tool _); [apply keeps_handleStreamingTool|].
  destruct (String.eqb _ _); [apply keeps_handleResourceBroadcast|].
  apply keeps_bind.
  { apply keeps_if_token. intros t _ _. by apply keeps_sendProgressNotification. }
  intros _. apply keeps_bind; [by apply keeps_callPythonHandler|]. intros result.
  apply keeps_bind; [|intros _; apply keeps_ret].
  apply keeps_if_token. intros t Heq _.
  apply keeps_bind; [by apply keeps_sendProgressNotification|]. intros _.
  apply keeps_delete_token; auto.
Qed.
End EnhancedFrames.

(** The frame of a whole tool call: only the call's own token is touched. *)
Lemma keeps_call_tool rt request :
  keeps (λ k, Enhanced.progressToken_of request = Some k) any_event
        (Enhanced.call_tool rt request).
Proof.
  unfold Enhanced.call_tool. apply keeps_try_catch.
  - by apply keeps_call_tool_try.
  - intros e. unfold Enhanced.call_tool_catch.
    apply keeps_bind; [|intros _; apply keeps_throw].
    apply keeps_if_token. intros t Heq _.
    apply keeps_bind; [|intros _; by apply keeps_delete_token].
    intros w. rewrite sendProgressNotification_runs. simpl.
    split; simpl; try done.
    eexists. split; [done|]. by apply Forall_forall.
Qed.

(** ** Running the handlers of [enhanced_index.ts] step by step *)

Lemma callPythonHandler_runs rt toolName args w :
  callPythonHandler rt toolName args w
  = (match child_process rt (spawned w) toolName args with
     | ProcError message => Threw (McpError InternalError message)
     | ProcClose code stdout stderr => on_close rt code stdout stderr
     end,
     count_spawn (emit_all [EvSpawn toolName args] w)).
Proof. unfold callPythonHandler. by destruct (child_process _ _ _ _). Qed.

Lemma if_token_present tok body :
  tok ≠ "" → if_token (Some tok) body = body tok.
Proof.
  intros Hne. unfold if_token. by destruct (String.eqb_spec tok "").
Qed.

Lemma spawns_app evs evs' : spawns (evs ++ evs') = (spawns evs ++ spawns evs')%list.
Proof. apply omap_app. Qed.

Lemma spawns_broadcast_events text msg transports :
  spawns (broadcast_events text msg transports) = [].
Proof.
  unfold broadcast_events. induction transports as [|[s t] rest IH]; [done|].
  rewrite fmap_cons, concat_cons, spawns_app, IH. unfold caught_attempt. simpl.
  by destruct (send_throws t).
Qed.

Lemma silent_if_token tok body : (∀ t, silent (body t)) → silent (if_token tok body).
Proof.
  intros Hb w. destruct tok as [t|]; simpl.
  - unfold when. destruct (negb _); [apply Hb|].
    unfold ret. exists [], id. rewrite emit_all_nil. by destruct w.
  - exists [], id. rewrite emit_all_nil. by destruct w.
Qed.

Lemma silent_sendProgressNotification rt t p m :
  silent (Enhanced.sendProgressNotification rt t p m).
Proof.
  intros w. rewrite sendProgressNotification_runs. eexists _, id.
  split; [done|]. apply spawns_broadcast_events.
Qed.

Lemma silent_begin_progress rt toolName tok :
  silent (Enhanced.begin_progress rt toolName tok).
Proof.
  apply silent_if_token. intros t w. unfold bind, update.
  rewrite sendProgressNotification_runs. eexists _, _.
  split; [done|]. apply spawns_broadcast_events.
Qed.

Lemma silent_complete rt toolName tok :
  silent (if_token tok (λ t,
            run Enhanced.sendProgressNotification rt t 100 ("Completed " ++ toolName);
            update (with_progressTokens (delete t)))).
Proof.
  apply silent_if_token. intros t w. unfold bind, update.
  rewrite sendProgressNotification_runs. eexists _, (delete t).
  split; [done|]. apply spawns_broadcast_events.
Qed.

Lemma silent_error_progress rt request e :
  silent (if_token (Enhanced.progressToken_of request) (λ t,
           run Enhanced.sendProgressNotification rt t (-1)
                 ("Error in " ++ Enhanced.name request ++ ": "
                  ++ Enhanced.errorMessage rt e);
           update (with_progressTokens (delete t)))).
Proof.
  apply silent_if_token. intros t w. unfold bind, update.
  rewrite sendProgressNotification_runs. eexists _, (delete t).
  split; [done|]. apply spawns_broadcast_events.
Qed.

(** The [catch] block always ends by throwing the error it caught. *)
Lemma call_tool_catch_rethrows rt request e w :
  (Enhanced.call_tool_catch rt request e w).1 = Threw e.
Proof.
  unfold Enhanced.call_tool_catch. cbv zeta. unfold bind at 1.
  by destruct (silent_error_progress rt request e w) as (evs & f & -> & _).
Qed.

(** Whenever a call of a streaming tool with a token returns, the token
    is still recorded: nothing after [begin_progress] touches the
    progress tokens on that path. *)
Lemma streaming_return_keeps_token rt request w tok result w' :
  is_streaming_tool (Enhanced.name request) = true →
  Enhanced.progressToken_of request = Some tok → tok ≠ "" →
  Enhanced.call_tool rt request w = (Returned result, w') →
  progressTokens w' !! tok = Some (Enhanced.name request).
Proof.
  intros Hstream Htok Hne. unfold Enhanced.call_tool, try_catch.
  destruct (Enhanced.call_tool_try rt request w) as [[r|e] w1] eqn:Htry.
  - intros [= <- <-]. revert Htry.
    unfold Enhanced.call_tool_try, Enhanced.begin_progress.
    rewrite Hstream, Htok, if_token_present by done.
    unfold bind at 1. unfold bind at 1, update.
    rewrite sendProgressNotification_runs. simpl. intros Htry.
    pose proof (keeps_handleStreamingTool rt (λ _, False) any_event
                  ltac:(done) ltac:(done) ltac:(done)
                  (Enhanced.name request) (Enhanced.args_of request) (Some tok)) as Hk.
    match type of Htry with _ _ _ _ _ ?w0 = _ => specialize (Hk w0) end.
    rewrite Htry in Hk. simpl in Hk.
    rewrite (frame_tokens _ _ _ _ Hk tok) by tauto. simpl.
    apply lookup_insert_eq.
  - intros Hcatch. pose proof (call_tool_catch_rethrows rt request e w1) as Hthrown.
    rewrite Hcatch in Hthrown. discriminate.
Qed.

Lemma stderr_or_default_contains stderr : contains (stderr_or_default stderr) stderr.
Proof.
  unfold stderr_or_default. destruct (String.eqb_spec stderr "") as [->|_].
  - by exists "Python process failed", "".
  - exists "", "". change ("" ++ stderr ++ "") with (stderr ++ "").
    clear. induction stderr as [|c s IH]; [done|].
    change (String c s ++ "") with (String c (s ++ "")). by rewrite <- IH.
Qed.

(** ** Two runs side by side

    [sim] relates the worlds of a run with the token and of a run without
    it; [agree_by E c1 c2] says that from related worlds [c1] and [c2] end
    alike and in related worlds. *)

Lemma sim_refl w : sim w w.
Proof. by split. Qed.

Lemma sim_emit_both evs1 evs2 w1 w2 :
  without_token <$> spawns evs1 = without_token <$> spawns evs2 →
  sim w1 w2 → sim (emit_all evs1 w1) (emit_all evs2 w2).
Proof.
  intros Hev [Ht Hs Hl Hn Hsp]. split; simpl; try done.
  rewrite !spawns_app, !fmap_app. congruence.
Qed.

Lemma sim_quiet_l evs f w1 w2 :
  spawns evs = [] → sim w1 w2 → sim (emit_all evs (with_progressTokens f w1)) w2.
Proof.
  intros Hev [Ht Hs Hl Hn Hsp]. split; simpl; try done.
  rewrite spawns_app, Hev, app_nil_r. done.
Qed.

Lemma agree_ret {A} (E : A → A → Prop) a b : E a b → agree_by E (ret a) (ret b).
Proof. by intros Hab w1 w2 Hsim. Qed.

Lemma agree_throw {A} (E : A → A → Prop) e : agree_by E (throw e) (throw e).
Proof. by intros w1 w2 Hsim. Qed.

Lemma agree_bind {A B} (E : A → A → Prop) (F : B → B → Prop) c1 c2 k1 k2 :
  agree_by E c1 c2 → (∀ a b, E a b → agree_by F (k1 a) (k2 b)) →
  agree_by F (bind c1 k1) (bind c2 k2).
Proof.
  intros Hc Hk w1 w2 Hsim. unfold bind. specialize (Hc w1 w2 Hsim).
  destruct (c1 w1) as [[a|e1] w1'], (c2 w2) as [[b|e2] w2']; simpl in *;
    destruct Hc as [Ho Hs]; try done.
  by apply Hk.
Qed.

Lemma agree_try_catch {A} (E : A → A → Prop) c1 c2 h1 h2 :
  agree_by E c1 c2 → (∀ e, agree_by E (h1 e) (h2 e)) →
  agree_by E (try_catch c1 h1) (try_catch c2 h2).
Proof.
  intros Hc Hh w1 w2 Hsim. unfold try_catch. specialize (Hc w1 w2 Hsim).
  destruct (c1 w1) as [[a|e1] w1'], (c2 w2) as [[b|e2] w2']; simpl in *;
    destruct Hc as [Ho Hs]; try done.
  subst e2. by apply Hh.
Qed.

Lemma agree_for_of {A} (xs : list A) b1 b2 :
  (∀ x, agree_by eq (b1 x) (b2 x)) → agree_by eq (for_of xs b1) (for_of xs b2).
Proof.
  intros Hb. induction xs as [|x xs IH]; simpl; [by apply agree_ret|].
  eapply agree_bind; [apply Hb|]. by intros _ _ _.
Qed.

(** A silent step taken by the left run only. *)
Lemma agree_silent_l {A} (E : A → A → Prop) c k1 c2 :
  silent c → agree_by E (k1 tt) c2 → agree_by E (bind c k1) c2.
Proof.
  intros Hc Hk w1 w2 Hsim. unfold bind.
  destruct (Hc w1) as (evs & f & -> & Hev). apply Hk. by apply sim_quiet_l.
Qed.

Lemma agree_get {A} (f1 f2 : World → A) :
  (∀ w1 w2, sim w1 w2 → f1 w1 = f2 w2) → agree_by eq (get f1) (get f2).
Proof. intros Hf w1 w2 Hsim. split; [by apply Hf | done]. Qed.

Lemma agree_get_any {A} (f1 f2 : World → A) :
  agree_by (λ _ _, True) (get f1) (get f2).
Proof. by intros w1 w2 Hsim. Qed.

Lemma agree_when b c1 c2 : agree_by eq c1 c2 → agree_by eq (when b c1) (when b c2).
Proof. intros Hc. destruct b; simpl; [done | by apply agree_ret]. Qed.

Lemma agree_emit ev1 ev2 :
  without_token <$> spawns [ev1] = without_token <$> spawns [ev2] →
  agree_by eq (update (emit ev1)) (update (emit ev2)).
Proof.
  intros Hev w1 w2 Hsim. split; [done|]. simpl.
  rewrite !emit_as_emit_all. by apply sim_emit_both.
Qed.

Lemma agree_transport_send session t msg1 msg2 :
  agree_by eq (transport_send session t msg1) (transport_send session t msg2).
Proof.
  intros w1 w2 Hsim. unfold transport_send.
  destruct (send_throws t) as [e|]; simpl; (split; [done|]);
    rewrite !emit_as_emit_all; by apply sim_emit_both.
Qed.

Lemma agree_callPythonHandler rt toolName args1 args2 :
  (∀ n, child_process rt n toolName args1 = child_process rt n toolName args2) →
  without_token (toolName, args1) = without_token (toolName, args2) →
  agree_by eq (callPythonHandler rt toolName args1) (callPythonHandler rt toolName args2).
Proof.
  intros Hproc Hargs w1 w2 Hsim. rewrite !callPythonHandler_runs. simpl.
  rewrite Hproc, (sim_spawned _ _ Hsim). split.
  - by destruct (child_process rt _ toolName args2) as [m|code out err];
      [|destruct (on_close rt code out err)].
  - pose proof (sim_emit_both [EvSpawn toolName args1] [EvSpawn toolName args2]
                  w1 w2 ltac:(simpl; by rewrite Hargs) Hsim) as [Ht Hs Hl Hn Hsp].
    split; simpl in *; congruence.
Qed.

Lemma agree_getResourceData rt uri :
  agree_by (λ _ _, True) (Enhanced.getResourceData rt uri)
           (Enhanced.getResourceData rt uri).
Proof.
  unfold Enhanced.getResourceData. apply agree_try_catch.
  - destruct (String.eqb uri _).
    + repeat (eapply agree_bind; [apply agree_get_any|]; intros ? ? _).
      by apply agree_ret.
    + eapply agree_bind; [by apply agree_callPythonHandler|].
      intros a b _. by apply agree_ret.
  - intros e. by apply agree_ret.
Qed.

Lemma agree_notifyResourceUpdate rt uri data :
  agree_by eq (Enhanced.notifyResourceUpdate rt uri data)
           (Enhanced.notifyResourceUpdate rt uri data).
Proof.
  unfold Enhanced.notifyResourceUpdate.
  destruct uri; try by apply agree_ret.
  eapply agree_bind.
  { apply agree_get. intros w1 w2 Hsim. by rewrite (sim_subscribers _ _ Hsim). }
  intros subscribed _ <-. apply agree_when.
  eapply agree_bind; [apply agree_get, sim_transports|].
  intros transports _ <-. apply agree_for_of. intros [session t].
  apply agree_try_catch.
  - eapply agree_bind with (E := λ _ _, True).
    + destruct (truthy data); [by apply agree_ret | apply agree_getResourceData].
    + intros a b _. apply agree_transport_send.
  - intros e. by apply agree_emit.
Qed.

Lemma agree_handleResourceBroadcast rt args1 args2 :
  prop "uri" args1 = prop "uri" args2 →
  prop "change_type" args1 = prop "change_type" args2 →
  prop "data" args1 = prop "data" args2 →
  agree_by eq (Enhanced.handleResourceBroadcast rt args1)
           (Enhanced.handleResourceBroadcast rt args2).
Proof.
  intros Huri Hchange Hdata. unfold Enhanced.handleResourceBroadcast.
  rewrite Huri, Hchange, Hdata.
  eapply agree_bind; [apply agree_notifyResourceUpdate|]. intros _ _ _.
  eapply agree_bind with (E := eq).
  { intros w1 w2 [Ht Hs Hl Hn Hsp]. by split. }
  intros _ _ _. eapply agree_bind.
  { apply agree_get. intros w1 w2 Hsim. by rewrite (sim_subscribers _ _ Hsim). }
  intros n _ <-. by apply agree_ret.
Qed.

(** An unguarded loop of sends stops at the first connection that throws,
    whatever the message. *)
Lemma agree_for_of_send transports msg1 msg2 :
  agree_by eq (for_of transports (λ st, transport_send st.1 st.2 msg1))
           (for_of transports (λ st, transport_send st.1 st.2 msg2)).
Proof. apply agree_for_of. intros [session t]. apply agree_transport_send. Qed.

Lemma agree_handleStreamingTool rt toolName args tok :
  (∀ n, child_process rt n toolName (JObj (("progress_token", JStr tok) :: args))
        = child_process rt n toolName (JObj args)) →
  agree_by eq
    (Enhanced.handleStreamingTool rt toolName (("progress_token", JStr tok) :: args)
       (Some tok))
    (Enhanced.handleStreamingTool rt toolName args None).
Proof.
  intros Hproc. unfold Enhanced.handleStreamingTool.
  apply agree_silent_l.
  { apply silent_if_token. intros t. apply silent_sendProgressNotification. }
  intros w1 w2 Hsim. revert w1 w2 Hsim.
  change (agree_by eq
    (await result <- callPythonHandler rt toolName
                       (JObj (("progress_token", JStr tok) :: args));
     await transports <- get sseTransports;
     run when (truthy (prop "streaming" (("progress_token", JStr tok) :: args))
               && bool_decide (0 < Map_size transports))
           (for_of transports (λ st,
              transport_send st.1 st.2 (Enhanced.streaming_message (Some tok) result)));
     run if_token (Some tok) (λ t,
           Enhanced.sendProgressNotification rt t 100 "Streaming completed");
     ret result)
    (await result <- callPythonHandler rt toolName (JObj args);
     await transports <- get sseTransports;
     run when (truthy (prop "streaming" args) && bool_decide (0 < Map_size transports))
           (for_of transports (λ st,
              transport_send st.1 st.2 (Enhanced.streaming_message None result)));
     ret result)).
  eapply agree_bind.
  { apply agree_callPythonHandler; [done|].
    unfold without_token. simpl. rewrite filter_cons_False; [done|]. simpl. tauto. }
  intros result _ <-.
  eapply agree_bind; [apply agree_get, sim_transports|].
  intros transports _ <-.
  eapply agree_bind.
  { change (prop "streaming" (("progress_token", JStr tok) :: args))
      with (prop "streaming" args).
    apply agree_when, agree_for_of_send. }
  intros _ _ _. apply agree_silent_l; [|by apply agree_ret].
  apply silent_if_token. intros t. apply silent_sendProgressNotification.
Qed.

Lemma outcome_rel_eq {A} (o1 o2 : Outcome A) : outcome_rel eq o1 o2 → o1 = o2.
Proof. destruct o1, o2; simpl; naive_solver. Qed.

(** With and without the token, the handler of [enhanced_index.ts] ends
    the same way and leaves worlds that differ in progress reporting
    only, as long as the backend answers the same for both argument
    objects. *)
Lemma agree_call_tool rt toolName args tok :
  as_string (prop "progress_token" args) = None →
  (∀ n, child_process rt n toolName (JObj (("progress_token", JStr tok) :: args))
        = child_process rt n toolName (JObj args)) →
  agree_by eq
    (Enhanced.call_tool rt
       (Enhanced.mkCallToolRequest toolName
          (Some (("progress_token", JStr tok) :: args))))
    (Enhanced.call_tool rt (Enhanced.mkCallToolRequest toolName (Some args))).
Proof.
  intros Hnone Hproc.
  set (with_token := Enhanced.mkCallToolRequest toolName
                       (Some (("progress_token", JStr tok) :: args))).
  set (without := Enhanced.mkCallToolRequest toolName (Some args)).
  unfold Enhanced.call_tool. apply agree_try_catch.
  - unfold Enhanced.call_tool_try.
    apply agree_silent_l; [apply silent_begin_progress|].
    unfold Enhanced.progressToken_of, Enhanced.args_of. simpl.
    rewrite Hnone. 
    intros w1 w2 Hsim. revert w1 w2 Hsim.
    change (agree_by eq
      (if is_streaming_tool toolName then
         Enhanced.handleStreamingTool rt toolName
           (("progress_token", JStr tok) :: args) (Some tok)
       else if String.eqb toolName "broadcast_resource_update" then
         Enhanced.handleResourceBroadcast rt (("progress_token", JStr tok) :: args)
       else
         run if_token (Some tok) (λ t,
               Enhanced.sendProgressNotification rt t 50
                 ("Processing " ++ toolName ++ "..."));
         await result <- callPythonHandler rt toolName
                           (JObj (("progress_token", JStr tok) :: args));
         run if_token (Some tok) (λ t,
               run Enhanced.sendProgressNotification rt t 100
                     ("Completed " ++ toolName);
               update (with_progressTokens (delete t)));
         ret result)
      (if is_streaming_tool toolName then
         Enhanced.handleStreamingTool rt toolName args None
       else if String.eqb toolName "broadcast_resource_update" then
         Enhanced.handleResourceBroadcast rt args
       else
         await result <- callPythonHandler rt toolName (JObj args);
         ret result)).
    destruct (is_streaming_tool toolName); [by apply agree_handleStreamingTool|].
    destruct (String.eqb toolName _); [by apply agree_handleResourceBroadcast|].
    apply agree_silent_l.
    { apply silent_if_token. intros t. apply silent_sendProgressNotification. }
    eapply agree_bind.
    { apply agree_callPythonHandler; [done|].
      unfold without_token. simpl. rewrite filter_cons_False; [done|]. simpl. tauto. }
    intros result _ <-.
    apply agree_silent_l; [apply silent_complete | by apply agree_ret].
  - intros e. unfold Enhanced.call_tool_catch. cbv zeta.
    apply agree_silent_l; [apply (silent_error_progress rt with_token e)|].
    unfold Enhanced.progressToken_of, Enhanced.args_of. simpl. rewrite Hnone.
    intros w1 w2 Hsim. by split.
Qed.

(** ** The connection registry *)

Section JsMapFacts.
Context {V : Type}.
Implicit Types (m : list (string * V)).

Lemma Map_get_set_eq k v m : Map_get k (Map_set k v m) = Some v.
Proof.
  induction m as [|[k' v'] rest IH]; simpl.
  - by rewrite String.eqb_refl.
  - destruct (String.eqb_spec k' k) as [->|Hne]; simpl.
    + by rewrite String.eqb_refl.
    + by destruct (String.eqb_spec k' k).
Qed.

Lemma Map_get_set_ne k k' v m : k ≠ k' → Map_get k' (Map_set k v m) = Map_get k' m.
Proof.
  intros Hne. induction m as [|[k0 v0] rest IH]; simpl.
  - by destruct (String.eqb_spec k k').
  - destruct (String.eqb_spec k0 k) as [->|Hne0]; simpl.
    + by destruct (String.eqb_spec k k').
    + by rewrite IH.
Qed.

Lemma Map_size_set_present k v m :
  Map_has k m = true → Map_size (Map_set k v m) = Map_size m.
Proof.
  unfold Map_has, Map_size. induction m as [|[k0 v0] rest IH]; simpl; [done|].
  destruct (String.eqb_spec k0 k); simpl; [done|]. intros H. by rewrite IH.
Qed.
End JsMapFacts.

(** * The properties of the specification *)

(** C1 (the code leaks the token): a successful call of the streaming tool
    [create_streaming_workflow] with progress token ["t2"] returns after its
    final progress-100 notification with ["t2"] still recorded in
    [progressTokens], although it was absent before the call; a call of the
    broadcast-only tool with token ["t3"] returns with ["t3"] still
    recorded and without any terminal notification. The [return] of both
    branches leaves the [try] block before the [delete] that the default
    branch and the [catch] block perform. *)
Theorem streaming_and_broadcast_leak_token :
  progressTokens one_client !! "t2" = None ∧
  (Enhanced.call_tool rt_ok streaming_workflow_t2 one_client).1 = Returned (JObj []) ∧
  progress_delivered_to "s1"
    (trace (Enhanced.call_tool rt_ok streaming_workflow_t2 one_client).2)
  = [JNum 0; JNum 25; JNum 75; JNum 100] ∧
  progressTokens (Enhanced.call_tool rt_ok streaming_workflow_t2 one_client).2 !! "t2"
  = Some "create_streaming_workflow" ∧
  progress_delivered_to "s1"
    (trace (Enhanced.call_tool rt_ok broadcast_t3 one_client).2)
  = [JNum 0] ∧
  progressTokens (Enhanced.call_tool rt_ok broadcast_t3 one_client).2 !! "t3"
  = Some "broadcast_resource_update".
Proof. vm_compute. repeat split. Qed.

(** C2 (the code does not isolate every broadcast): in
    [enhanced_index.ts] the streaming broadcast of [handleStreamingTool]
    sends without a [try]: with a closed first connection and a healthy
    second one, the second connection receives the guarded progress
    notifications 0 and 25 but never the streaming update (progress 75),
    and the tool call fails with the send error. In [index.ts] no
    broadcast is guarded: the healthy connection receives nothing at all
    and the call fails with the send error. *)
Theorem unguarded_broadcast_aborts :
  (Enhanced.call_tool rt_ok streaming_workflow_t2 two_clients_first_closed).1
  = Threw (JsError "Not connected") ∧
  progress_delivered_to "s2"
    (trace (Enhanced.call_tool rt_ok streaming_workflow_t2 two_clients_first_closed).2)
  = [JNum 0; JNum 25; JNum (-1)] ∧
  (Index.call_tool rt_ok (index_streaming_workflow (JStr "t2"))
     two_clients_first_closed).1
  = Threw (JsError "Not connected") ∧
  delivered_to "s2"
    (trace (Index.call_tool rt_ok (index_streaming_workflow (JStr "t2"))
              two_clients_first_closed).2)
  = [].
Proof. vm_compute. repeat split. Qed.

(** C3: when a tool call of [enhanced_index.ts] carries a progress token
    and its [try] block raises an error, the handler broadcasts exactly one
    notification with progress [-1] and message
    ["Error in <tool>: <message>"], where [<message>] is the [message] of
    the error, or [String(error)] for a thrown value that is no [Error]
    (one guarded attempt per open connection, after a body that sent no
    [-1] notification), removes the token from [progressTokens], and
    throws the same error. *)
Theorem error_path_notifies_once rt request w tok e w1 :
  Enhanced.progressToken_of request = Some tok → tok ≠ "" →
  Enhanced.call_tool_try rt request w = (Threw e, w1) →
  let text :=
    match e with
    | McpError code message => McpError_message rt code message
    | JsError message => message
    | NonError (JStr s) => s
    | NonError JUndefined => "undefined"
    | NonError JNull => "null"
    | NonError (JBool true) => "true"
    | NonError (JBool false) => "false"
    | NonError v => String_of rt v
    end in
  let notification :=
    mkJsonRpc "2.0" "notifications/progress"
      [("progressToken", JStr tok);
       ("progress", JNum (-1));
       ("message", JStr ("Error in " ++ Enhanced.name request ++ ": " ++ text));
       ("timestamp", JStr (Date_toISOString rt))] in
  ∃ body_events,
    trace w1 = (trace w ++ body_events)%list ∧
    Forall no_error_progress body_events ∧
    (Enhanced.call_tool rt request w).1 = Threw e ∧
    trace (Enhanced.call_tool rt request w).2
    = (trace w1 ++
       concat ((λ st : string * SSEServerTransport,
                  match send_throws st.2 with
                  | None => [EvDelivered st.1 notification]
                  | Some failure =>
                      [EvSendFailed st.1 notification failure;
                       EvConsoleError "Error sending progress notification:"
                         (Some failure)]
                  end) <$> sseTransports w))%list ∧
    progressTokens (Enhanced.call_tool rt request w).2 !! tok = None.
Proof.
  intros Htok Hne Htry text notification.
  pose proof (keeps_call_tool_try rt (λ k, Enhanced.progressToken_of request = Some k)
                no_error_progress) as Hkeeps.
  destruct (Hkeeps ltac:(done) ltac:(done) ltac:(auto) request ltac:(auto) w)
    as [Ht _ _ (evs & Hevs & Hall)].
  rewrite Htry in *. simpl in *.
  exists evs. split; [done|]. split; [done|].
  unfold Enhanced.call_tool, try_catch. rewrite Htry.
  unfold Enhanced.call_tool_catch, bind. rewrite Htok. simpl.
  destruct (String.eqb_spec tok ""); [done|]. simpl.
  rewrite sendProgressNotification_runs. simpl.
  unfold throw. simpl. rewrite Ht. split; [done|]. split; [|apply lookup_delete_eq].
  f_equal.
  assert (Enhanced.errorMessage rt e = text) as ->.
  { unfold text. by destruct e as [code message|message|[| |[]| | | | |]]. }
  reflexivity.
Qed.

Lemma error_path_notifies_once_witness :
  ∃ body_events,
    trace (Enhanced.call_tool_try rt_agent_not_found execute_workflow_t1 one_client).2
    = (trace one_client ++ body_events)%list ∧
    Forall no_error_progress body_events ∧
    (Enhanced.call_tool rt_agent_not_found execute_workflow_t1 one_client).1
    = Threw (McpError InternalError "agent not found") ∧
    trace (Enhanced.call_tool rt_agent_not_found execute_workflow_t1 one_client).2
    = (trace (Enhanced.call_tool_try rt_agent_not_found execute_workflow_t1
                one_client).2 ++
       [EvDelivered "s1"
          (mkJsonRpc "2.0" "notifications/progress"
             [("progressToken", JStr "t1");
              ("progress", JNum (-1));
              ("message",
               JStr "Error in execute_workflow: MCP error -32603: agent not found");
              ("timestamp", JStr "2023-11-14T22:13:20.000Z")])])%list ∧
    progressTokens
      (Enhanced.call_tool rt_agent_not_found execute_workflow_t1 one_client).2 !! "t1"
    = None.
Proof.
  apply (error_path_notifies_once rt_agent_not_found execute_workflow_t1 one_client
           "t1" (McpError InternalError "agent not found")).
  - reflexivity.
  - discriminate.
  - vm_compute. reflexivity.
Defined.

(** C4: for every invocation of the backend bridge whose process closes:
    on a non-zero exit status (or a kill by signal) the bridge fails with
    an error whose message carries the captured stderr text, and is that
    text whenever it is not empty, and a default tool call surfaces that
    same error to its caller; on exit status zero with stdout that does
    not parse as JSON it fails with the protocol error
    ["Invalid JSON response from Python"]; on exit status zero with
    stdout that parses, the parsed value is returned. *)
Theorem backend_bridge_outcomes rt toolName args w code stdout stderr :
  child_process rt (spawned w) toolName args = ProcClose code stdout stderr →
  (code ≠ Some 0%Z →
     ∃ message, (callPythonHandler rt toolName args w).1
                = Threw (McpError InternalError message)
                ∧ contains message stderr
                ∧ (stderr ≠ "" → message = stderr)
                ∧ ∀ request, Enhanced.name request = toolName →
                    JObj (Enhanced.args_of request) = args →
                    is_streaming_tool toolName = false →
                    String.eqb toolName "broadcast_resource_update" = false →
                    (Enhanced.call_tool rt request w).1
                    = Threw (McpError InternalError message)) ∧
  (code = Some 0%Z → JSON_parse rt stdout = None →
     (callPythonHandler rt toolName args w).1
     = Threw (McpError InternalError "Invalid JSON response from Python")) ∧
  (code = Some 0%Z → ∀ value, JSON_parse rt stdout = Some value →
     (callPythonHandler rt toolName args w).1 = Returned value).
Proof.
  intros Hproc. rewrite callPythonHandler_runs, Hproc. simpl.
  unfold on_close. repeat split.
  - intros Hcode. exists (stderr_or_default stderr).
    rewrite bool_decide_eq_false_2 by done. simpl. split; [done|].
    split; [apply stderr_or_default_contains|]. split.
    + intros Hne. unfold stderr_or_default. by destruct (String.eqb_spec stderr "").
    + intros request <- <- Hstream Hbroadcast.
      unfold Enhanced.call_tool, try_catch, Enhanced.call_tool_try.
      rewrite Hstream, Hbroadcast. unfold bind at 1.
      destruct (silent_begin_progress rt (Enhanced.name request)
                  (Enhanced.progressToken_of request) w)
        as (evs0 & f0 & -> & _).
      unfold bind at 1.
      destruct (silent_if_token (Enhanced.progressToken_of request)
                  (λ t, Enhanced.sendProgressNotification rt t 50
                          ("Processing " ++ Enhanced.name request ++ "..."))
                  ltac:(intros t; apply silent_sendProgressNotification)
                  (emit_all evs0 (with_progressTokens f0 w)))
        as (evs1 & f1 & -> & _).
      unfold bind at 1. rewrite callPythonHandler_runs. simpl. rewrite Hproc.
      unfold on_close. rewrite bool_decide_eq_false_2 by done. simpl.
      apply call_tool_catch_rethrows.
  - intros -> Hparse. rewrite bool_decide_eq_true_2 by done. simpl. by rewrite Hparse.
  - intros -> value Hparse. rewrite bool_decide_eq_true_2 by done. simpl.
    by rewrite Hparse.
Qed.

(** The scenario of the specification: exit code 2 with stderr
    ["agent not found"]. *)
Lemma backend_bridge_outcomes_witness :
  (callPythonHandler rt_agent_not_found "execute_workflow"
     (JObj (Enhanced.args_of execute_workflow_t1)) one_client).1
  = Threw (McpError InternalError "agent not found") ∧
  (Enhanced.call_tool rt_agent_not_found execute_workflow_t1 one_client).1
  = Threw (McpError InternalError "agent not found").
Proof.
  destruct (backend_bridge_outcomes rt_agent_not_found "execute_workflow"
              (JObj (Enhanced.args_of execute_workflow_t1)) one_client
              (Some 2%Z) "" "agent not found" eq_refl) as [Hfail _].
  destruct (Hfail ltac:(discriminate)) as (message & Hthrown & _ & Hmsg & Hcall).
  rewrite (Hmsg ltac:(discriminate)) in Hthrown, Hcall.
  split; [exact Hthrown|].
  apply (Hcall execute_workflow_t1); reflexivity.
Defined.

(** The last two messages of a run that follows the scenario. *)
Lemma streaming_scenario_end delivered result :
  streaming_scenario delivered result →
  ∃ chunk last earlier,
    reverse delivered = last :: chunk :: earlier ∧
    method chunk = "notifications/streaming_update" ∧
    prop "data" (params chunk) = result ∧
    method last = "notifications/progress".
Proof.
  intros (first & second & steps & chunk & last & -> & _ & _ & _ & Hc & Hd & Hl & _).
  exists chunk, last, (reverse steps ++ [second; first])%list.
  split; [|done].
  rewrite !reverse_cons, reverse_app. simpl. by rewrite <- !app_assoc.
Qed.

(** C5 (as stated, false on the code): with [streaming: true], token
    ["t2"], one open connection and a backend that succeeds, neither
    variant of the server follows the scenario. In [enhanced_index.ts] the
    message that carries the result is a [notifications/progress] message
    with progress 75, not a [streaming_update], and there are no step
    notifications; in [index.ts] the [streaming_update] carries the call's
    arguments and is the last message, with no completion after it. *)
Lemma streaming_scenario_not_followed :
  ¬ streaming_scenario
      (delivered_to "s1"
         (trace (Enhanced.call_tool rt_ok streaming_workflow_t2 one_client).2))
      (JObj []) ∧
  ¬ streaming_scenario
      (delivered_to "s1"
         (trace (Index.call_tool rt_ok (index_streaming_workflow (JStr "t2"))
                   one_client).2))
      (JObj [("streaming", JBool true); ("completed", JBool true);
             ("tool", JStr "create_streaming_workflow")]).
Proof.
  split; intros H; apply streaming_scenario_end in H;
    destruct H as (chunk & last & earlier & Hrev & Hchunk & Hdata & Hlast);
    vm_compute in Hrev; injection Hrev as <- <- <-; discriminate.
Qed.

(** C5 (amended): in [enhanced_index.ts], invoking
    [create_streaming_workflow] with a truthy [streaming] argument and a
    progress token, with exactly one open connection whose sends succeed
    and a backend that exits with status 0 and parseable output, returns
    the backend's result and delivers to that connection, in order:
    progress 0 ["Starting create_streaming_workflow..."], progress 25
    ["Initializing streaming..."], then (after the one backend call, with
    no step notifications) one [notifications/progress] message with
    progress 75 that carries the result as [data], and finally progress
    100 ["Streaming completed"]. *)
Theorem streaming_tool_notifications rt request w session t tok stdout stderr result :
  sseTransports w = [(session, t)] → send_throws t = None →
  Enhanced.name request = "create_streaming_workflow" →
  Enhanced.progressToken_of request = Some tok → tok ≠ "" →
  truthy (prop "streaming" (Enhanced.args_of request)) = true →
  child_process rt (spawned w) (Enhanced.name request)
    (JObj (Enhanced.args_of request))
  = ProcClose (Some 0%Z) stdout stderr →
  JSON_parse rt stdout = Some result →
  (Enhanced.call_tool rt request w).1 = Returned result ∧
  trace (Enhanced.call_tool rt request w).2
  = (trace w ++
     [EvDelivered session
        (Enhanced.progress_message rt tok 0 "Starting create_streaming_workflow...");
      EvDelivered session
        (Enhanced.progress_message rt tok 25 "Initializing streaming...");
      EvSpawn "create_streaming_workflow" (JObj (Enhanced.args_of request));
      EvDelivered session
        (mkJsonRpc "2.0" "notifications/progress"
           [("progressToken", JStr tok); ("progress", JNum 75);
            ("message", JStr "Streaming updates..."); ("data", result)]);
      EvDelivered session
        (Enhanced.progress_message rt tok 100 "Streaming completed")])%list.
Proof.
  intros Hreg Hsend Hname Htok Hne Hstreaming Hproc Hparse.
  unfold Enhanced.call_tool, try_catch, Enhanced.call_tool_try,
    Enhanced.begin_progress, Enhanced.handleStreamingTool.
  rewrite Hname in *. rewrite Htok.
  change (is_streaming_tool "create_streaming_workflow") with true. cbv iota.
  rewrite !if_token_present by done.
  unfold bind, update, get. simpl.
  rewrite !sendProgressNotification_runs. simpl.
  rewrite callPythonHandler_runs. simpl. rewrite Hproc.
  unfold on_close. simpl. rewrite Hparse, Hstreaming, Hreg. simpl.
  unfold transport_send, broadcast_events, caught_attempt. simpl. rewrite Hsend. simpl.
  unfold ret. simpl. rewrite sendProgressNotification_runs. simpl. rewrite Hreg.
  unfold broadcast_events, caught_attempt. simpl. rewrite Hsend. simpl.
  split; [done|].
  unfold Enhanced.streaming_message, token_or.
  destruct (String.eqb_spec tok ""); [done|].
  by rewrite <- !app_assoc.
Qed.

Lemma streaming_tool_notifications_witness :
  (Enhanced.call_tool rt_ok streaming_workflow_t2 one_client).1 = Returned (JObj []) ∧
  trace (Enhanced.call_tool rt_ok streaming_workflow_t2 one_client).2
  = (trace one_client ++
     [EvDelivered "s1"
        (Enhanced.progress_message rt_ok "t2" 0 "Starting create_streaming_workflow...");
      EvDelivered "s1"
        (Enhanced.progress_message rt_ok "t2" 25 "Initializing streaming...");
      EvSpawn "create_streaming_workflow"
        (JObj (Enhanced.args_of streaming_workflow_t2));
      EvDelivered "s1"
        (mkJsonRpc "2.0" "notifications/progress"
           [("progressToken", JStr "t2"); ("progress", JNum 75);
            ("message", JStr "Streaming updates..."); ("data", JObj [])]);
      EvDelivered "s1"
        (Enhanced.progress_message rt_ok "t2" 100 "Streaming completed")])%list.
Proof.
  apply (streaming_tool_notifications rt_ok streaming_workflow_t2 one_client
           "s1" (healthy "client") "t2" "{}" "" (JObj []));
    try reflexivity.
  discriminate.
Defined.

(** C6 (as stated, false on the code): invoking [execute_workflow] with
    token ["t1"] does not produce the messages ["Starting execute_workflow"]
    and ["Processing execute_workflow"]; the first two notifications end in
    ["..."]. And when the backend fails, the third notification is the
    error notification with progress [-1]. *)
Lemma execute_workflow_messages_differ :
  notification_of <$>
    delivered_to "s1"
      (trace (Enhanced.call_tool rt_ok execute_workflow_t1 one_client).2)
  ≠ [(JStr "t1", JNum 0, JStr "Starting execute_workflow");
     (JStr "t1", JNum 50, JStr "Processing execute_workflow");
     (JStr "t1", JNum 100, JStr "Completed execute_workflow")] ∧
  progress_delivered_to "s1"
    (trace (Enhanced.call_tool rt_agent_not_found execute_workflow_t1 one_client).2)
  = [JNum 0; JNum 50; JNum (-1)].
Proof. vm_compute. split; [discriminate | reflexivity]. Qed.

(** C6 (amended): invoking a default tool such as [execute_workflow] with
    a progress token such as ["t1"], when the backend exits with status 0
    and parseable output, returns the backend's result and produces
    exactly the ordered sequence: the broadcast of
    [progress(t1, 0, "Starting execute_workflow...")], the broadcast of
    [progress(t1, 50, "Processing execute_workflow...")], the backend
    call, the broadcast of [progress(t1, 100, "Completed execute_workflow")];
    each broadcast is one guarded attempt per open connection; afterwards
    the token is absent from [progressTokens]. *)
Theorem default_tool_notifications rt request w tok stdout stderr result :
  Enhanced.progressToken_of request = Some tok → tok ≠ "" →
  is_streaming_tool (Enhanced.name request) = false →
  String.eqb (Enhanced.name request) "broadcast_resource_update" = false →
  child_process rt (spawned w) (Enhanced.name request)
    (JObj (Enhanced.args_of request))
  = ProcClose (Some 0%Z) stdout stderr →
  JSON_parse rt stdout = Some result →
  (Enhanced.call_tool rt request w).1 = Returned result ∧
  trace (Enhanced.call_tool rt request w).2
  = (trace w
     ++ broadcast_events progress_text
          (Enhanced.progress_message rt tok 0
             ("Starting " ++ Enhanced.name request ++ "..."))
          (sseTransports w)
     ++ broadcast_events progress_text
          (Enhanced.progress_message rt tok 50
             ("Processing " ++ Enhanced.name request ++ "..."))
          (sseTransports w)
     ++ [EvSpawn (Enhanced.name request) (JObj (Enhanced.args_of request))]
     ++ broadcast_events progress_text
          (Enhanced.progress_message rt tok 100
             ("Completed " ++ Enhanced.name request))
          (sseTransports w))%list ∧
  progressTokens (Enhanced.call_tool rt request w).2 !! tok = None.
Proof.
  intros Htok Hne Hstream Hbroadcast Hproc Hparse.
  unfold Enhanced.call_tool, try_catch, Enhanced.call_tool_try,
    Enhanced.begin_progress.
  rewrite Htok, Hstream, Hbroadcast, !if_token_present by done.
  unfold bind, update. simpl.
  rewrite !sendProgressNotification_runs. simpl.
  rewrite callPythonHandler_runs. simpl. rewrite Hproc.
  unfold on_close. simpl. rewrite Hparse.
  rewrite sendProgressNotification_runs. simpl.
  split; [done|]. split.
  - by rewrite <- !app_assoc.
  - apply lookup_delete_eq.
Qed.

Lemma default_tool_notifications_witness :
  (Enhanced.call_tool rt_ok execute_workflow_t1 one_client).1 = Returned (JObj []) ∧
  notification_of <$>
    delivered_to "s1"
      (trace (Enhanced.call_tool rt_ok execute_workflow_t1 one_client).2)
  = [(JStr "t1", JNum 0, JStr "Starting execute_workflow...");
     (JStr "t1", JNum 50, JStr "Processing execute_workflow...");
     (JStr "t1", JNum 100, JStr "Completed execute_workflow")] ∧
  progressTokens (Enhanced.call_tool rt_ok execute_workflow_t1 one_client).2 !! "t1"
  = None.
Proof.
  destruct (default_tool_notifications rt_ok execute_workflow_t1 one_client
              "t1" "{}" "" (JObj []))
    as (Hresult & Htrace & Habsent); try reflexivity; try discriminate.
  split; [exact Hresult|]. split; [|exact Habsent].
  rewrite Htrace. vm_compute. reflexivity.
Defined.

(** C7 (as stated, false on the code): in [index.ts] the streaming branch
    is entered only when a string token is present. With the token,
    [create_streaming_workflow] runs the simulated steps, never calls the
    backend and returns the streaming summary; without it the same request
    takes the regular path, calls the backend and returns its result. In
    [enhanced_index.ts] the token is a field of the argument object handed
    to the backend, so a backend that reads the field returns different
    results to the two calls. *)
Lemma index_streaming_branch_needs_token :
  (Index.call_tool rt_ok (index_streaming_workflow (JStr "t2")) one_client).1
  ≠ (Index.call_tool rt_ok (index_streaming_workflow JUndefined) one_client).1 ∧
  spawns (trace (Index.call_tool rt_ok (index_streaming_workflow (JStr "t2"))
                   one_client).2)
  = [] ∧
  spawns (trace (Index.call_tool rt_ok (index_streaming_workflow JUndefined)
                   one_client).2)
  = [("create_streaming_workflow", JObj [("streaming", JBool true)])] ∧
  (Enhanced.call_tool (sample_runtime backend_reads_token) execute_workflow_t1
     one_client).1
  ≠ (Enhanced.call_tool (sample_runtime backend_reads_token)
       (Enhanced.mkCallToolRequest "execute_workflow" (Some [])) one_client).1.
Proof. vm_compute. repeat split; discriminate. Qed.

(** C7 (amended): in [enhanced_index.ts], where the token travels inside
    the argument object, for every tool name and argument object the call
    with a [progress_token] field and the call without it end with the same
    result or the same error, invoke the backend the same number of times
    with the same tool names and the same arguments up to that field, and
    leave the same connections, subscriptions and update stamp, provided
    the backend answers the same for the two argument objects. *)
Theorem token_only_skips_progress rt toolName args tok w :
  as_string (prop "progress_token" args) = None →
  (∀ n, child_process rt n toolName (JObj (("progress_token", JStr tok) :: args))
        = child_process rt n toolName (JObj args)) →
  let with_token :=
    Enhanced.call_tool rt
      (Enhanced.mkCallToolRequest toolName
         (Some (("progress_token", JStr tok) :: args))) w in
  let without :=
    Enhanced.call_tool rt (Enhanced.mkCallToolRequest toolName (Some args)) w in
  with_token.1 = without.1 ∧
  without_token <$> spawns (trace with_token.2)
  = without_token <$> spawns (trace without.2) ∧
  spawned with_token.2 = spawned without.2 ∧
  sseTransports with_token.2 = sseTransports without.2 ∧
  subscribers with_token.2 = subscribers without.2 ∧
  lastResourceUpdate with_token.2 = lastResourceUpdate without.2.
Proof.
  intros Hnone Hproc with_token without.
  destruct (agree_call_tool rt toolName args tok Hnone Hproc w w (sim_refl w))
    as [Houtcome [Ht Hs Hl Hn Hsp]].
  split; [by apply outcome_rel_eq | done].
Qed.

Lemma token_only_skips_progress_witness :
  (Enhanced.call_tool rt_ok execute_workflow_t1 one_client).1
  = (Enhanced.call_tool rt_ok
       (Enhanced.mkCallToolRequest "execute_workflow" (Some [])) one_client).1.
Proof.
  apply (token_only_skips_progress rt_ok "execute_workflow" [] "t1" one_client).
  - reflexivity.
  - intros n. reflexivity.
Defined.

(** C8 (as stated, false on the code): registering a connection under a
    session identifier that is already registered is not rejected as a
    duplicate. With the setup failing as it does with the SDK the
    repository asks for, the handler logs the setup error and is rejected
    with the error of Express, exactly as it is for an identifier that was
    never registered; and the existing registration is not left unchanged:
    the registry now holds the new connection in place of the old one. *)
Lemma duplicate_session_not_rejected :
  let w := world_of [("s1", healthy "first")] in
  let after :=
    Enhanced.get_sse rt_ok (Some "s1") (healthy "second")
      (Some already_started) (Some headers_sent) w in
  let first_time :=
    Enhanced.get_sse rt_ok (Some "s1") (healthy "second")
      (Some already_started) (Some headers_sent) (world_of []) in
  after.1 = Threw headers_sent ∧
  first_time.1 = Threw headers_sent ∧
  trace after.2 = [EvConsoleError "Error setting up SSE transport:" (Some already_started)] ∧
  trace first_time.2 = trace after.2 ∧
  Map_get "s1" (sseTransports w) = Some (healthy "first") ∧
  Map_get "s1" (sseTransports after.2) = Some (healthy "second") ∧
  sseTransports after.2 = [("s1", healthy "second")].
Proof. vm_compute. repeat split. Qed.

(** C8 (amended): registering a connection whose client-supplied session
    identifier is already present in [sseTransports] is not rejected as a
    duplicate: whatever the setup of the transport and the answer of the
    route do, the handler returns or throws, and logs and answers, exactly
    as it does for the same identifier when it is not registered; it
    throws only what the answer to a failed setup throws, and returns
    when the setup or that answer succeeds. It replaces the previously
    registered connection: afterwards the identifier maps to the new
    connection, the number of registered connections is unchanged, and
    every other identifier maps to what it mapped to before. When the
    setup succeeds the only thing reported is that the transport
    started. *)
Theorem duplicate_session_replaces
    rt w sessionId transport setup_throws respond_throws old :
  sessionId ≠ "" →
  Map_get sessionId (sseTransports w) = Some old →
  let after :=
    Enhanced.get_sse rt (Some sessionId) transport setup_throws respond_throws w in
  let first_time :=
    Enhanced.get_sse rt (Some sessionId) transport setup_throws respond_throws
      (with_sseTransports (Map_delete sessionId) w) in
  after.1 = first_time.1 ∧
  trace after.2 = trace first_time.2 ∧
  (∀ e, after.1 = Threw e ↔ setup_throws ≠ None ∧ respond_throws = Some e) ∧
  Map_get sessionId (sseTransports after.2) = Some transport ∧
  Map_size (sseTransports after.2) = Map_size (sseTransports w) ∧
  (∀ k, k ≠ sessionId →
        Map_get k (sseTransports after.2) = Map_get k (sseTransports w)) ∧
  (setup_throws = None →
   after.1 = Returned tt ∧
   trace after.2
   = (trace w ++
      [EvConsoleError ("SSE transport started for session: " ++ sessionId) None])%list).
Proof.
  intros Hne Hold after first_time.
  assert (Enhanced.sessionId_of rt (Some sessionId) = sessionId) as Hid.
  { unfold Enhanced.sessionId_of, token_or. by destruct (String.eqb_spec sessionId ""). }
  assert (sseTransports after.2 = Map_set sessionId transport (sseTransports w))
    as Hregistry.
  { unfold after, Enhanced.get_sse. rewrite Hid.
    unfold try_catch, bind, update, Enhanced.respond.
    by destruct setup_throws, respond_throws. }
  split; [|split; [|split]].
  - unfold after, first_time, Enhanced.get_sse.
    unfold try_catch, bind, update, Enhanced.respond.
    by destruct setup_throws, respond_throws.
  - unfold after, first_time, Enhanced.get_sse.
    unfold try_catch, bind, update, Enhanced.respond.
    by destruct setup_throws, respond_throws.
  - intros e. unfold after, Enhanced.get_sse.
    unfold try_catch, bind, update, Enhanced.respond.
    destruct setup_throws as [failure|], respond_throws as [refusal|]; simpl.
    + split; [by intros [= ->] | by intros [_ [= ->]]].
    + split; [done | by intros [_ ?]].
    + split; [done | by intros [? _]].
    + split; [done | by intros [? _]].
  - rewrite Hregistry. split; [apply Map_get_set_eq|]. split; [|split].
    + apply Map_size_set_present. unfold Map_has. by rewrite Hold.
    + intros k Hk. by apply Map_get_set_ne.
    + intros ->. unfold after, Enhanced.get_sse. rewrite Hid.
      unfold try_catch, bind, update. by simpl.
Qed.

Lemma duplicate_session_replaces_witness :
  Map_get "s1"
    (sseTransports
       (Enhanced.get_sse rt_ok (Some "s1") (healthy "second")
          (Some already_started) (Some headers_sent)
          (world_of [("s1", healthy "first")])).2)
  = Some (healthy "second").
Proof.
  apply (duplicate_session_replaces rt_ok (world_of [("s1", healthy "first")])
           "s1" (healthy "second") (Some already_started) (Some headers_sent)
           (healthy "first")).
  - discriminate.
  - reflexivity.
Defined.

(** C9 (as stated, false on the code): beginning progress tracking for a
    token that is already tracked does not fail; the existing mapping of
    the token is overwritten with the new tool name. *)
Lemma duplicate_token_not_rejected :
  progressTokens t1_in_flight !! "t1" = Some "create_agent" ∧
  (Enhanced.begin_progress rt_ok "execute_workflow" (Some "t1") t1_in_flight).1
  = Returned tt ∧
  progressTokens
    (Enhanced.begin_progress rt_ok "execute_workflow" (Some "t1") t1_in_flight).2
    !! "t1"
  = Some "execute_workflow".
Proof. vm_compute. repeat split. Qed.

(** C9 (amended): beginning progress tracking for a token that is already
    tracked returns normally and overwrites the existing token-to-tool
    mapping with the new tool name. *)
Theorem duplicate_token_overwrites rt toolName tok old w :
  tok ≠ "" → progressTokens w !! tok = Some old →
  (Enhanced.begin_progress rt toolName (Some tok) w).1 = Returned tt ∧
  progressTokens (Enhanced.begin_progress rt toolName (Some tok) w).2 !! tok
  = Some toolName.
Proof.
  intros Hne Hold. unfold Enhanced.begin_progress.
  rewrite if_token_present by done. unfold bind, update.
  rewrite sendProgressNotification_runs. simpl. split; [done|].
  apply lookup_insert_eq.
Qed.

Lemma duplicate_token_overwrites_witness :
  (Enhanced.begin_progress rt_ok "execute_workflow" (Some "t1") t1_in_flight).1
  = Returned tt ∧
  progressTokens
    (Enhanced.begin_progress rt_ok "execute_workflow" (Some "t1") t1_in_flight).2
    !! "t1"
  = Some "execute_workflow".
Proof.
  apply (duplicate_token_overwrites rt_ok "execute_workflow" "t1" "create_agent"
           t1_in_flight).
  - discriminate.
  - vm_compute. reflexivity.
Defined.

(** C10: every tool invocation of [enhanced_index.ts], whether it returns
    or throws, leaves the subscribed URIs (and the registered connections)
    exactly as it found them, and leaves every entry of [progressTokens]
    other than the one keyed by its own progress token unchanged. *)
Theorem tool_call_frame rt request w :
  subscribers (Enhanced.call_tool rt request w).2 = subscribers w ∧
  sseTransports (Enhanced.call_tool rt request w).2 = sseTransports w ∧
  ∀ k, Enhanced.progressToken_of request ≠ Some k →
       progressTokens (Enhanced.call_tool rt request w).2 !! k
       = progressTokens w !! k.
Proof.
  destruct (keeps_call_tool rt request w) as [Ht Hs Hk _].
  by repeat split.
Qed.

Lemma tool_call_frame_witness :
  progressTokens (Enhanced.call_tool rt_ok streaming_workflow_t2 t1_in_flight).2 !! "t1"
  = progressTokens t1_in_flight !! "t1".
Proof.
  apply (tool_call_frame rt_ok streaming_workflow_t2 t1_in_flight).
  discriminate.
Defined.

(** * Further properties of the code *)

(** ** The command line of [enhanced_index.ts] *)

(** Induction over a list two elements at a time, as the argument loop
    walks it. *)
Lemma list_pair_ind {A} (P : list A → Prop) :
  P [] → (∀ x, P [x]) →
  (∀ x y l, P l → P (y :: l) → P (x :: y :: l)) →
  ∀ l, P l.
Proof.
  intros Hnil Hone Hstep l.
  assert (P l ∧ ∀ x, P (x :: l)) as [H _]; [|exact H].
  induction l as [|y l [IH1 IH2]]; [by split|].
  split; [apply IH2|]. intros x. by apply Hstep.
Qed.

Section ParseArgs.
Variable hs : Host.

(** Rewrites both runs of the loop, from the given configuration and
    from the default one, with the induction hypothesis. *)
Ltac both_runs IH :=
  match goal with
  | |- _ (Enhanced.parse_from _ ?A _) = match _ (Enhanced.parse_from _ ?B _) with _ => _ end =>
      rewrite (IH A), (IH B)
  end.



Lemma parse_from_host args : ∀ config,
  host (Enhanced.parse_from hs config args)
  = match host (Enhanced.parseArgs hs args) with
    | Some h => Some h
    | None => host config
    end.
Proof.
  unfold Enhanced.parseArgs.
  induction args as [|x|x y l IH1 IH2] using list_pair_ind; intros config;
    [done..|].
  cbn [Enhanced.parse_from].
  destruct (String.eqb x "--transport").
  { both_runs IH1. by repeat case_match. }
  destruct (String.eqb x "--port"); [both_runs IH1; by repeat case_match|].
  destruct (String.eqb x "--host").
  { both_runs IH1. by repeat case_match. }
  apply IH2.
Qed.

Lemma parse_from_port args : ∀ config,
  port (Enhanced.parse_from hs config args)
  = match port (Enhanced.parseArgs hs args) with
    | Some p => Some p
    | None => port config
    end.
Proof.
  unfold Enhanced.parseArgs.
  induction args as [|x|x y l IH1 IH2] using list_pair_ind; intros config;
    [done..|].
  cbn [Enhanced.parse_from].
  destruct (String.eqb x "--transport").
  { both_runs IH1. by repeat case_match. }
  destruct (String.eqb x "--port").
  { both_runs IH1. by repeat case_match. }
  destruct (String.eqb x "--host"); [both_runs IH1; by repeat case_match|].
  apply IH2.
Qed.

(** X2: [parseArgs] reads the arguments left to right and a later
    [--host] or [--port] overrides an earlier one: for a command line that
    starts with [--host value], the host is the one the rest of the line sets
    and [value] only if the rest sets none; likewise for [--port], whose
    value goes through [parseInt]. *)
Theorem parseArgs_later_value_wins value rest :
  host (Enhanced.parseArgs hs ("--host" :: value :: rest))
  = Some (default value (host (Enhanced.parseArgs hs rest))) ∧
  port (Enhanced.parseArgs hs ("--port" :: value :: rest))
  = Some (default (parseInt hs value) (port (Enhanced.parseArgs hs rest))).
Proof.
  split.
  - unfold Enhanced.parseArgs at 1. cbn [Enhanced.parse_from]. simpl.
    rewrite parse_from_host. simpl. by destruct (host (Enhanced.parseArgs hs rest)).
  - unfold Enhanced.parseArgs at 1. cbn [Enhanced.parse_from]. simpl.
    rewrite parse_from_port. simpl. by destruct (port (Enhanced.parseArgs hs rest)).
Qed.

(** X3: a command line on which no argument is [--transport], [--port]
    or [--host] leaves the configuration at its default: stdio transport, no
    port and no host. *)
Theorem parseArgs_ignores_other_arguments args :
  Forall (λ arg, is_flag arg = false) args →
  Enhanced.parseArgs hs args = default_config.
Proof.
  unfold Enhanced.parseArgs. fold default_config. generalize default_config.
  induction args as [|x|x y l IH1 IH2] using list_pair_ind; intros config Hall;
    [done..|].
  cbn [Enhanced.parse_from].
  apply Forall_cons in Hall as [Hx Hall]. unfold is_flag in Hx.
  apply orb_false_iff in Hx as [Hx Hh]. apply orb_false_iff in Hx as [Ht Hp].
  rewrite Ht, Hp, Hh. by apply IH2.
Qed.
End ParseArgs.

Lemma parseArgs_ignores_other_arguments_witness :
  Enhanced.parseArgs sample_host ["--verbose"; "sse"; "--debug"] = default_config.
Proof.
  apply (parseArgs_ignores_other_arguments sample_host ["--verbose"; "sse"; "--debug"]).
  repeat constructor.
Defined.

Section MainFacts.
Variable hs : Host.

Lemma parse_from_sse args : ∀ config,
  type (Enhanced.parse_from hs config args) = "sse" →
  type config = "sse"
  ∨ ∃ i, args !! i = Some "--transport" ∧ args !! S i = Some "sse".
Proof.
  induction args as [|x|x y l IH1 IH2] using list_pair_ind; intros config;
    [by left..|].
  cbn [Enhanced.parse_from].
  destruct (String.eqb_spec x "--transport") as [->|_].
  { intros H. apply IH1 in H as [H|(i & Hi & Hi')].
    - destruct (String.eqb_spec y "sse") as [->|_]; simpl in H.
      + right. by exists 0.
      + destruct (String.eqb_spec y "stdio") as [->|_]; simpl in H; [done | by left].
    - right. by exists (S (S i)). }
  assert (∀ config', type config' = type config →
            type (Enhanced.parse_from hs config' l) = "sse" →
            type config = "sse"
            ∨ ∃ i, (x :: y :: l) !! i = Some "--transport"
                   ∧ (x :: y :: l) !! S i = Some "sse") as Hskip.
  { intros config' Heq H. apply IH1 in H as [H|(i & Hi & Hi')].
    - left. congruence.
    - right. by exists (S (S i)). }
  destruct (String.eqb x "--port"); [by apply Hskip|].
  destruct (String.eqb x "--host"); [by apply Hskip|].
  intros H. apply IH2 in H as [H|(i & Hi & Hi')]; [by left|].
  right. by exists (S i).
Qed.

(** X4: [main] starts the SSE server only when the command line holds
    [--transport] directly followed by [sse]; the port it passes is never 0
    and the host never empty, and they are 3000 and ["localhost"] when the
    command line sets none. *)
Theorem main_starts_sse_only_on_request args p h :
  Enhanced.main hs args = RunWithSSE p h →
  (∃ i, args !! i = Some "--transport" ∧ args !! S i = Some "sse")
  ∧ p ≠ 0%Z ∧ h ≠ ""
  ∧ (port (Enhanced.parseArgs hs args) = None → p = 3000%Z)
  ∧ (host (Enhanced.parseArgs hs args) = None → h = "localhost").
Proof.
  unfold Enhanced.main.
  destruct (String.eqb_spec (type (Enhanced.parseArgs hs args)) "sse") as [Hsse|];
    [|done].
  intros [= <- <-]. split.
  { apply parse_from_sse in Hsse as [H|H]; [done | exact H]. }
  split.
  { unfold int_or. destruct (port _) as [[|z]|]; try done.
    by destruct (Z.eqb_spec z 0). }
  split.
  { unfold token_or. destruct (host _) as [h|]; [|done].
    by destruct (String.eqb_spec h ""). }
  split; by intros ->.
Qed.
End MainFacts.

Lemma main_starts_sse_only_on_request_witness :
  (∃ i, ["--port"; "0"; "--transport"; "sse"] !! i = Some "--transport"
        ∧ ["--port"; "0"; "--transport"; "sse"] !! S i = Some "sse")
  ∧ 3000%Z ≠ 0%Z ∧ "localhost" ≠ ""
  ∧ (port (Enhanced.parseArgs sample_host ["--port"; "0"; "--transport"; "sse"]) = None
     → 3000%Z = 3000%Z)
  ∧ (host (Enhanced.parseArgs sample_host ["--port"; "0"; "--transport"; "sse"]) = None
     → "localhost" = "localhost").
Proof.
  apply (main_starts_sse_only_on_request sample_host
           ["--port"; "0"; "--transport"; "sse"] 3000 "localhost").
  reflexivity.
Defined.

(** ** More about the connection registry *)

Section RegistryFacts.
Context {V : Type}.
Implicit Types (m : list (string * V)).

Lemma Map_get_None k m : Map_get k m = None ↔ k ∉ m.*1.
Proof.
  induction m as [|[k' v] rest IH]; simpl.
  - split; [intros _; apply not_elem_of_nil | done].
  - destruct (String.eqb_spec k' k) as [->|Hne].
    + split; [done|]. intros H. exfalso. apply H. by left.
    + rewrite IH, not_elem_of_cons.
      split; [intros ?; split; [by intros -> | done] | by intros [_ ?]].
Qed.

Lemma Map_has_true k m : Map_has k m = true ↔ is_Some (Map_get k m).
Proof.
  unfold Map_has. by destruct (Map_get k m); split.
Qed.

Lemma Map_delete_keys_subset k k' m : k' ∈ (Map_delete k m).*1 → k' ∈ m.*1.
Proof.
  induction m as [|[k0 v] rest IH]; simpl; [done|].
  destruct (String.eqb k0 k); simpl.
  - by right.
  - rewrite !elem_of_cons. intros [?|?]; [by left | right; by apply IH].
Qed.

Lemma Map_get_delete_eq k m : NoDup m.*1 → Map_get k (Map_delete k m) = None.
Proof.
  induction m as [|[k0 v] rest IH]; simpl; [done|].
  intros [Hk0 Hrest]%NoDup_cons.
  destruct (String.eqb_spec k0 k) as [->|Hne]; simpl.
  - by apply Map_get_None.
  - destruct (String.eqb_spec k0 k); [done | by apply IH].
Qed.

Lemma Map_get_delete_ne k k' m : k ≠ k' → Map_get k' (Map_delete k m) = Map_get k' m.
Proof.
  intros Hne. induction m as [|[k0 v] rest IH]; simpl; [done|].
  destruct (String.eqb_spec k0 k) as [->|Hne0]; simpl.
  - by destruct (String.eqb_spec k k').
  - by rewrite IH.
Qed.

Lemma Map_set_keys k v m :
  (Map_set k v m).*1 = if Map_has k m then m.*1 else (m.*1 ++ [k])%list.
Proof.
  unfold Map_has. induction m as [|[k0 v0] rest IH]; [done|].
  cbn [Map_set Map_get].
  destruct (String.eqb_spec k0 k) as [->|Hne]; [done|].
  rewrite !fmap_cons, IH. by destruct (Map_get k rest).
Qed.

Lemma Map_set_unique k v m : NoDup m.*1 → NoDup (Map_set k v m).*1.
Proof.
  intros Hm. rewrite Map_set_keys. unfold Map_has.
  destruct (Map_get k m) eqn:Hget; [done|].
  apply NoDup_app. split; [done|]. split; [|apply NoDup_singleton].
  intros x Hx ->%list_elem_of_singleton. by apply Map_get_None in Hget.
Qed.

Lemma Map_delete_unique k m : NoDup m.*1 → NoDup (Map_delete k m).*1.
Proof.
  induction m as [|[k0 v] rest IH]; simpl; [done|].
  intros [Hk0 Hrest]%NoDup_cons.
  destruct (String.eqb k0 k); simpl; [done|].
  apply NoDup_cons. split; [|by apply IH].
  intros H. by apply Hk0, (Map_delete_keys_subset k).
Qed.
End RegistryFacts.

Lemma delivered_to_app session evs evs' :
  delivered_to session (evs ++ evs')
  = (delivered_to session evs ++ delivered_to session evs')%list.
Proof. apply omap_app. Qed.

Lemma broadcast_events_cons text msg st rest :
  broadcast_events text msg (st :: rest)
  = (caught_attempt text msg st ++ broadcast_events text msg rest)%list.
Proof. reflexivity. Qed.

Lemma delivered_to_attempt session text msg s t :
  delivered_to session (caught_attempt text msg (s, t))
  = if String.eqb s session
    then match send_throws t with None => [msg] | Some _ => [] end
    else [].
Proof.
  unfold caught_attempt, delivered_to. simpl.
  destruct (send_throws t); simpl; by destruct (String.eqb s session).
Qed.

(** What a broadcast delivers to one session. *)
Lemma delivered_to_absent session text msg transports :
  Map_get session transports = None →
  delivered_to session (broadcast_events text msg transports) = [].
Proof.
  induction transports as [|[s t] rest IH]; [done|].
  cbn [Map_get]. rewrite broadcast_events_cons, delivered_to_app, delivered_to_attempt.
  destruct (String.eqb s session); [done|]. intros Hrest. by rewrite IH.
Qed.

Lemma delivered_to_healthy session t text msg transports :
  NoDup transports.*1 →
  Map_get session transports = Some t → send_throws t = None →
  delivered_to session (broadcast_events text msg transports) = [msg].
Proof.
  induction transports as [|[s t'] rest IH]; [done|].
  rewrite fmap_cons. intros [Hs Hrest]%NoDup_cons.
  cbn [Map_get]. rewrite broadcast_events_cons, delivered_to_app, delivered_to_attempt.
  destruct (String.eqb_spec s session) as [->|Hne].
  - intros [= ->] Hsend. rewrite Hsend.
    by rewrite delivered_to_absent by (by apply Map_get_None).
  - intros Hget Hsend. by rewrite IH.
Qed.

(** ** Connections of [enhanced_index.ts] *)

(** X5: [sendProgressNotification] of [enhanced_index.ts] never throws,
    never calls the backend, and every registered connection whose [send]
    succeeds receives the progress message exactly once, whatever the other
    connections do, when no session identifier is registered twice. *)
Theorem progress_broadcast_reaches_healthy_connections
    rt progressToken progress message w session t :
  registry_unique w →
  Map_get session (sseTransports w) = Some t → send_throws t = None →
  let after := Enhanced.sendProgressNotification rt progressToken progress message w in
  after.1 = Returned tt ∧
  ∃ evs, trace after.2 = (trace w ++ evs)%list ∧
         delivered_to session evs
         = [Enhanced.progress_message rt progressToken progress message] ∧
         spawns evs = [].
Proof.
  intros Hunique Hget Hsend after. unfold after.
  rewrite sendProgressNotification_runs. simpl. split; [done|].
  eexists. split; [done|]. split.
  - by eapply delivered_to_healthy.
  - apply spawns_broadcast_events.
Qed.

Lemma progress_broadcast_reaches_healthy_connections_witness :
  let after :=
    Enhanced.sendProgressNotification rt_ok "t1" 50 "Processing" two_clients_first_closed in
  after.1 = Returned tt ∧
  ∃ evs, trace after.2 = (trace two_clients_first_closed ++ evs)%list ∧
         delivered_to "s2" evs = [Enhanced.progress_message rt_ok "t1" 50 "Processing"] ∧
         spawns evs = [].
Proof.
  apply (progress_broadcast_reaches_healthy_connections rt_ok "t1" 50 "Processing"
           two_clients_first_closed "s2" (healthy "client")).
  - unfold registry_unique. apply (bool_decide_unpack _). by vm_compute.
  - reflexivity.
  - reflexivity.
Defined.

Lemma post_message_runs query handle respond w :
  Enhanced.post_message query handle respond w
  = match query with
    | Some s =>
        if String.eqb s "" then
          (Returned NotRouted,
           emit_all
             [EvResponse 400 (JObj [("error", JStr "Invalid or missing session ID")])] w)
        else match Map_get s (sseTransports w) with
             | Some t =>
                 match handle t, respond with
                 | Some e, Some refusal =>
                     (Threw refusal,
                      emit_all [EvConsoleError "Error handling POST message:" (Some e)] w)
                 | Some e, None =>
                     (Returned (RoutedTo t),
                      emit_all
                        [EvConsoleError "Error handling POST message:" (Some e);
                         EvResponse 500
                           (JObj [("error", JStr "Failed to process message")])] w)
                 | None, _ => (Returned (RoutedTo t), w)
                 end
             | None =>
                 (Returned NotRouted,
                  emit_all
                    [EvResponse 400
                       (JObj [("error", JStr "Invalid or missing session ID")])] w)
             end
    | None =>
        (Returned NotRouted,
         emit_all
           [EvResponse 400 (JObj [("error", JStr "Invalid or missing session ID")])] w)
    end.
Proof.
  unfold Enhanced.post_message, bind, get, update, ret.
  destruct query as [s|]; [|done].
  destruct (String.eqb_spec s "") as [->|Hne]; simpl; [done|].
  unfold Map_has. destruct (Map_get s (sseTransports w)) as [t|]; simpl; [|done].
  unfold try_catch, bind, console_error, update, throw, ret, Enhanced.respond.
  destruct (handle t) as [e|], respond as [refusal|]; simpl; try done.
  unfold emit_all, emit. simpl. by rewrite <- app_assoc.
Qed.

(** X6: the [POST /message] route never changes the registry. It answers
    400 and reaches no connection exactly when the request carries no
    non-empty session identifier that is registered; otherwise the message
    goes to the connection registered for the identifier and to no other,
    and a failure of its [handlePostMessage] is logged and answered with
    500. The route throws only when [handlePostMessage] of that connection
    threw and the answer of the [catch] block throws too: then nothing is
    answered and the route throws what that answer threw. *)
Theorem post_message_reaches_registered_sessions_only query handle respond w :
  let after := Enhanced.post_message query handle respond w in
  let registered s t := query = Some s ∧ s ≠ "" ∧ Map_get s (sseTransports w) = Some t in
  sseTransports after.2 = sseTransports w ∧
  (∀ t, after.1 = Returned (RoutedTo t) → ∃ s, registered s t) ∧
  (∀ s t, registered s t →
          after.1 = match handle t, respond with
                    | Some _, Some refusal => Threw refusal
                    | _, _ => Returned (RoutedTo t)
                    end ∧
          trace after.2
          = (trace w ++
             match handle t with
             | None => []
             | Some e =>
                 EvConsoleError "Error handling POST message:" (Some e)
                 :: match respond with
                    | Some _ => []
                    | None =>
                        [EvResponse 500
                           (JObj [("error", JStr "Failed to process message")])]
                    end
             end)%list) ∧
  (∀ e, after.1 = Threw e →
        respond = Some e ∧ ∃ s t, registered s t ∧ handle t ≠ None) ∧
  (after.1 = Returned NotRouted ↔ ¬ ∃ s t, registered s t) ∧
  (after.1 = Returned NotRouted →
   trace after.2
   = (trace w ++
      [EvResponse 400 (JObj [("error", JStr "Invalid or missing session ID")])])%list).
Proof.
  intros after registered. unfold registered, after.
  rewrite post_message_runs. clear after registered.
  split; [|split; [|split; [|split; [|split]]]].
  - destruct query as [s|]; [|done].
    destruct (String.eqb s ""); [done|].
    destruct (Map_get s (sseTransports w)) as [t|]; [|done].
    by destruct (handle t), respond.
  - intros t. destruct query as [s|]; [|done].
    destruct (String.eqb_spec s ""); [done|].
    destruct (Map_get s (sseTransports w)) as [t'|] eqn:Hget; [|done].
    destruct (handle t'), respond; try done; intros [= ->]; by exists s.
  - intros s t (-> & Hne & ->). destruct (String.eqb_spec s ""); [done|].
    destruct (handle t), respond; simpl; split; try done; by rewrite app_nil_r.
  - intros e. destruct query as [s|]; [|done].
    destruct (String.eqb_spec s ""); [done|].
    destruct (Map_get s (sseTransports w)) as [t|] eqn:Hget; [|done].
    destruct (handle t) as [e0|] eqn:Hhandle, respond; try done.
    intros [= ->]. split; [done|]. exists s, t. by rewrite Hhandle.
  - destruct query as [s|]; [|split; [by intros _ (s & t & ? & _) | done]].
    destruct (String.eqb_spec s "") as [->|Hne].
    { split; [|done]. by intros _ (s & t & [= <-] & ? & _). }
    destruct (Map_get s (sseTransports w)) as [t|] eqn:Hget.
    + split.
      * by destruct (handle t), respond.
      * intros Hnone. exfalso. apply Hnone. by exists s, t.
    + split; [|done]. intros _ (s' & t & [= <-] & _ & Hget').
      by rewrite Hget in Hget'.
  - destruct query as [s|]; [|done].
    destruct (String.eqb s ""); [done|].
    destruct (Map_get s (sseTransports w)) as [t|]; [|done].
    by destruct (handle t), respond.
Qed.

Lemma post_message_reaches_registered_sessions_only_witness :
  (Enhanced.post_message (Some "s1") (λ _, Some (JsError "SSE connection not established"))
     (Some headers_sent) one_client).1
  = Threw headers_sent.
Proof.
  destruct (post_message_reaches_registered_sessions_only (Some "s1")
              (λ _, Some (JsError "SSE connection not established"))
              (Some headers_sent) one_client) as (_ & _ & Hreached & _).
  destruct (Hreached "s1" (healthy "client")) as [Houtcome _].
  - repeat split. discriminate.
  - exact Houtcome.
Defined.

Lemma get_sse_registers rt query transport setup_throws respond_throws w :
  sseTransports (Enhanced.get_sse rt query transport setup_throws respond_throws w).2
  = Map_set (Enhanced.sessionId_of rt query) transport (sseTransports w) ∧
  subscribers (Enhanced.get_sse rt query transport setup_throws respond_throws w).2
  = subscribers w ∧
  progressTokens (Enhanced.get_sse rt query transport setup_throws respond_throws w).2
  = progressTokens w.
Proof.
  unfold Enhanced.get_sse, try_catch, bind, update, Enhanced.respond. simpl.
  by destruct setup_throws, respond_throws.
Qed.

(** X7: when setting up a connection fails in [GET /sse] after the
    transport was created, the handler logs the error and tries to answer
    500: when that answer throws, as it does once the transport has
    started the response, nothing is answered and the handler is rejected
    with what the answer threw. Either way the connection stays
    registered and the other registrations are untouched: a later
    [POST /message] for the same session goes to that connection. *)
Theorem failed_setup_stays_registered
    rt sessionId transport e respond_throws handle respond_later w :
  sessionId ≠ "" →
  let after :=
    Enhanced.get_sse rt (Some sessionId) transport (Some e) respond_throws w in
  after.1 = match respond_throws with
            | Some refusal => Threw refusal
            | None => Returned tt
            end ∧
  trace after.2
  = (trace w ++
     EvConsoleError "Error setting up SSE transport:" (Some e)
     :: match respond_throws with
        | Some _ => []
        | None =>
            [EvResponse 500 (JObj [("error", JStr "Failed to establish SSE connection")])]
        end)%list ∧
  Map_get sessionId (sseTransports after.2) = Some transport ∧
  (∀ other, other ≠ sessionId →
            Map_get other (sseTransports after.2) = Map_get other (sseTransports w)) ∧
  (Enhanced.post_message (Some sessionId) handle respond_later after.2).1
  = match handle transport, respond_later with
    | Some _, Some refusal => Threw refusal
    | _, _ => Returned (RoutedTo transport)
    end.
Proof.
  intros Hne after.
  destruct (get_sse_registers rt (Some sessionId) transport (Some e) respond_throws w)
    as (Hreg & _).
  fold after in Hreg.
  assert (Enhanced.sessionId_of rt (Some sessionId) = sessionId) as Hid.
  { unfold Enhanced.sessionId_of, token_or. by destruct (String.eqb_spec sessionId ""). }
  rewrite Hid in Hreg.
  assert (Map_get sessionId (sseTransports after.2) = Some transport) as Hget.
  { rewrite Hreg. apply Map_get_set_eq. }
  split.
  { unfold after, Enhanced.get_sse, try_catch, bind, update, Enhanced.respond.
    by destruct respond_throws. }
  split.
  { unfold after, Enhanced.get_sse, try_catch, bind, update, Enhanced.respond.
    destruct respond_throws; simpl; [done|]. by rewrite <- app_assoc. }
  split; [done|]. split.
  { intros other Hother. rewrite Hreg. by apply Map_get_set_ne. }
  rewrite post_message_runs, Hget.
  destruct (String.eqb_spec sessionId ""); [done|].
  by destruct (handle transport), respond_later.
Qed.

Lemma failed_setup_stays_registered_witness :
  let after :=
    Enhanced.get_sse rt_ok (Some "s9") (healthy "late")
      (Some already_started) (Some headers_sent) one_client in
  after.1 = Threw headers_sent ∧
  trace after.2
  = [EvConsoleError "Error setting up SSE transport:" (Some already_started)] ∧
  Map_get "s9" (sseTransports after.2) = Some (healthy "late") ∧
  (∀ other, other ≠ "s9" →
            Map_get other (sseTransports after.2) = Map_get other (sseTransports one_client)) ∧
  (Enhanced.post_message (Some "s9") (λ _, None) None after.2).1
  = Returned (RoutedTo (healthy "late")).
Proof.
  apply (failed_setup_stays_registered rt_ok "s9" (healthy "late") already_started
           (Some headers_sent) (λ _, None) None one_client).
  discriminate.
Defined.

Lemma onclose_runs sessionId w :
  Enhanced.onclose sessionId w
  = (Returned tt,
     emit_all [EvConsoleError ("SSE transport closed for session: " ++ sessionId) None]
       (with_sseTransports (Map_delete sessionId) w)).
Proof. reflexivity. Qed.

(** X8: after the [onclose] callback of a session has run, the session is
    not registered, every other session is registered as before, a
    [POST /message] for it is refused, and a broadcast delivers nothing to
    it. *)
Theorem close_unregisters_session sessionId handle respond w :
  registry_unique w →
  let after := (Enhanced.onclose sessionId w).2 in
  registry_unique after ∧
  Map_get sessionId (sseTransports after) = None ∧
  (∀ other, other ≠ sessionId →
            Map_get other (sseTransports after) = Map_get other (sseTransports w)) ∧
  (Enhanced.post_message (Some sessionId) handle respond after).1 = Returned NotRouted ∧
  ∀ text msg,
    delivered_to sessionId (broadcast_events text msg (sseTransports after)) = [].
Proof.
  intros Hunique after. unfold after. rewrite onclose_runs. simpl.
  assert (Map_get sessionId (Map_delete sessionId (sseTransports w)) = None) as Hgone
    by by apply Map_get_delete_eq.
  split; [by apply Map_delete_unique|]. split; [done|]. split.
  { intros other Hne. by apply Map_get_delete_ne. }
  split.
  { rewrite post_message_runs.
    cbn [sseTransports emit_all with_sseTransports].
    rewrite Hgone. by destruct (String.eqb sessionId ""). }
  intros text msg. by apply delivered_to_absent.
Qed.

Lemma close_unregisters_session_witness :
  Map_get "s1" (sseTransports (Enhanced.onclose "s1" two_clients_first_closed).2) = None.
Proof.
  apply (close_unregisters_session "s1" (λ _, None) None two_clients_first_closed).
  unfold registry_unique. apply (bool_decide_unpack _). by vm_compute.
Defined.

(** X9: the [onclose] callback removes by session identifier, not by
    connection: when a session identifier is registered again and the
    replaced connection closes afterwards, the replacement is unregistered
    and progress broadcasts no longer reach it. *)
Theorem stale_close_unregisters_replacement
    rt sessionId old replacement setup_throws respond_throws w :
  registry_unique w → sessionId ≠ "" →
  Map_get sessionId (sseTransports w) = Some old →
  let replaced :=
    (Enhanced.get_sse rt (Some sessionId) replacement setup_throws respond_throws w).2 in
  let closed := (Enhanced.onclose sessionId replaced).2 in
  Map_get sessionId (sseTransports replaced) = Some replacement ∧
  Map_get sessionId (sseTransports closed) = None ∧
  ∀ progressToken progress message,
    delivered_to sessionId
      (trace (Enhanced.sendProgressNotification rt progressToken progress message
                closed).2)
    = delivered_to sessionId (trace closed).
Proof.
  intros Hunique Hne Hold replaced closed.
  destruct (get_sse_registers rt (Some sessionId) replacement setup_throws
              respond_throws w) as (Hreg & _).
  fold replaced in Hreg.
  assert (Enhanced.sessionId_of rt (Some sessionId) = sessionId) as Hid.
  { unfold Enhanced.sessionId_of, token_or. by destruct (String.eqb_spec sessionId ""). }
  rewrite Hid in Hreg.
  assert (registry_unique replaced) as Hunique'.
  { unfold registry_unique. rewrite Hreg. by apply Map_set_unique. }
  assert (Map_get sessionId (sseTransports closed) = None) as Hgone.
  { unfold closed. rewrite onclose_runs. simpl. by apply Map_get_delete_eq. }
  split; [rewrite Hreg; apply Map_get_set_eq|]. split; [done|].
  intros progressToken progress message.
  rewrite sendProgressNotification_runs. simpl.
  rewrite delivered_to_app, delivered_to_absent by done. by rewrite app_nil_r.
Qed.

Lemma stale_close_unregisters_replacement_witness :
  Map_get "s1"
    (sseTransports
       (Enhanced.onclose "s1"
          (Enhanced.get_sse rt_ok (Some "s1") (healthy "second")
             (Some already_started) (Some headers_sent) one_client).2).2)
  = None.
Proof.
  apply (stale_close_unregisters_replacement rt_ok "s1" (healthy "client")
           (healthy "second") (Some already_started) (Some headers_sent) one_client).
  - unfold registry_unique. apply (bool_decide_unpack _). by vm_compute.
  - discriminate.
  - reflexivity.
Defined.

(** X10: two [GET /sse] requests without a session identifier that arrive
    at the same [Date.now()] get the same generated identifier: the second
    connection replaces the first and the registry does not grow. *)
Theorem anonymous_sessions_share_one_slot
    rt first second setup respond setup' respond' w :
  let once := (Enhanced.get_sse rt None first setup respond w).2 in
  let twice := (Enhanced.get_sse rt None second setup' respond' once).2 in
  Map_get ("session_" ++ decimal (Date_now rt)) (sseTransports once) = Some first ∧
  Map_get ("session_" ++ decimal (Date_now rt)) (sseTransports twice) = Some second ∧
  Map_size (sseTransports twice) = Map_size (sseTransports once).
Proof.
  intros once twice.
  destruct (get_sse_registers rt None first setup respond w) as (Hreg & _).
  destruct (get_sse_registers rt None second setup' respond' once) as (Hreg' & _).
  fold once in Hreg. fold twice in Hreg'. rewrite Hreg', Hreg.
  change (Enhanced.sessionId_of rt None) with ("session_" ++ decimal (Date_now rt)).
  split; [apply Map_get_set_eq|]. split; [apply Map_get_set_eq|].
  apply Map_size_set_present. apply Map_has_true. rewrite Map_get_set_eq. by eexists.
Qed.

(** ** Resource updates of [enhanced_index.ts] *)

Lemma grown_refl w : grown w w 0 [].
Proof. unfold grown. destruct w; simpl. by rewrite Nat.add_0_r, app_nil_r. Qed.

Lemma grown_emit w w0 n evs ev :
  grown w w0 n evs → grown w (emit ev w0) n (evs ++ [ev]).
Proof. unfold grown, emit. intros ->. simpl. by rewrite app_assoc. Qed.

Lemma grown_spawn w w0 n evs ev :
  grown w w0 n evs → grown w (count_spawn (emit ev w0)) (n + 1) (evs ++ [ev]).
Proof.
  unfold grown, emit, count_spawn. intros ->. simpl.
  by rewrite app_assoc, Nat.add_1_r, Nat.add_succ_r.
Qed.

Section ResourceFacts.
Variable rt : Runtime.

Lemma getResourceData_runs uri w :
  uri ≠ "autogen://system/metrics" →
  ∃ payload,
    Enhanced.getResourceData rt uri w
    = (Returned payload, count_spawn (emit (EvSpawn "get_resource" (JObj [("uri", JStr uri)])) w))
    ∧ payload
      = match (callPythonHandler rt "get_resource" (JObj [("uri", JStr uri)]) w).1 with
        | Returned result => result
        | Threw e => JObj [("error", JStr (Enhanced.errorMessage rt e))]
        end.
Proof.
  intros Hne. unfold Enhanced.getResourceData.
  destruct (String.eqb_spec uri "autogen://system/metrics"); [done|].
  unfold try_catch, bind. rewrite callPythonHandler_runs. simpl.
  rewrite <- emit_as_emit_all.
  destruct (match child_process rt _ _ _ with ProcError _ => _ | _ => _ end);
    eexists; split; reflexivity.
Qed.

Lemma getResourceData_metrics w :
  ∃ payload, Enhanced.getResourceData rt "autogen://system/metrics" w = (Returned payload, w).
Proof. by eexists. Qed.

(** A guarded send of a resource update, after [evs0]. *)
Lemma resource_send uri payload session t w w0 n evs0 :
  grown w w0 n evs0 →
  ∃ w' evs,
    try_catch
      (transport_send session t (Enhanced.resource_message rt uri payload))
      (λ error, console_error "Error sending resource update notification:" (Some error))
      w0
    = (Returned tt, w')
    ∧ grown w w' n (evs0 ++ evs)
    ∧ spawns evs = []
    ∧ ∀ other, delivered_to other evs
               = if String.eqb session other
                 then match send_throws t with
                      | None => [Enhanced.resource_message rt uri payload]
                      | Some _ => []
                      end
                 else [].
Proof.
  intros Hgrown. unfold try_catch, transport_send, console_error, update.
  destruct (send_throws t) as [e|]; simpl.
  - eexists _, [EvSendFailed session (Enhanced.resource_message rt uri payload) e;
                 EvConsoleError "Error sending resource update notification:" (Some e)].
    split; [done|]. split.
    { unfold grown in *. subst w0. unfold emit. simpl. by rewrite <- !app_assoc. }
    split; [done|]. intros other. by destruct (String.eqb session other).
  - eexists _, [EvDelivered session (Enhanced.resource_message rt uri payload)].
    split; [done|]. split; [by apply grown_emit|].
    split; [done|]. intros other. simpl. by destruct (String.eqb session other).
Qed.

(** One turn of the loop of [notifyResourceUpdate]. *)
Lemma resource_turn uri data session t w :
  ∃ w' evs payload,
    try_catch
      (await payload <- (if truthy data then ret data else Enhanced.getResourceData rt uri);
       transport_send session t (Enhanced.resource_message rt uri payload))
      (λ error, console_error "Error sending resource update notification:" (Some error))
      w
    = (Returned tt, w')
    ∧ grown w w'
        (if truthy data || String.eqb uri "autogen://system/metrics" then 0 else 1) evs
    ∧ spawns evs
      = (if truthy data || String.eqb uri "autogen://system/metrics" then []
         else [get_resource_call uri])
    ∧ (∀ other, delivered_to other evs
                = if String.eqb session other
                  then match send_throws t with
                       | None => [Enhanced.resource_message rt uri payload]
                       | Some _ => []
                       end
                  else [])
    ∧ (truthy data = true → payload = data).
Proof.
  assert (∀ payload w0,
            (if truthy data then ret data else Enhanced.getResourceData rt uri) w
            = (Returned payload, w0) →
            try_catch
              (await payload <- (if truthy data then ret data
                                 else Enhanced.getResourceData rt uri);
               transport_send session t (Enhanced.resource_message rt uri payload))
              (λ error,
                 console_error "Error sending resource update notification:"
                   (Some error)) w
            = try_catch
                (transport_send session t (Enhanced.resource_message rt uri payload))
                (λ error,
                   console_error "Error sending resource update notification:"
                     (Some error)) w0) as Hstep.
  { intros payload w0 Heq. unfold try_catch, bind. by rewrite Heq. }
  destruct (truthy data) eqn:Hdata; simpl.
  - rewrite (Hstep data w eq_refl).
    destruct (resource_send uri data session t w w 0 [] (grown_refl w))
      as (w' & evs & -> & Hg & Hs & Hd).
    by exists w', evs, data.
  - destruct (String.eqb_spec uri "autogen://system/metrics") as [->|Hne].
    + destruct (getResourceData_metrics w) as (payload & Hrun).
      rewrite (Hstep payload w Hrun).
      destruct (resource_send "autogen://system/metrics" payload session t w w 0 []
                  (grown_refl w))
        as (w' & evs & -> & Hg & Hs & Hd).
      by exists w', evs, payload.
    + destruct (getResourceData_runs uri w Hne) as (payload & Hrun & _).
      rewrite (Hstep payload _ Hrun).
      destruct (resource_send uri payload session t w _ 1
                  [EvSpawn "get_resource" (JObj [("uri", JStr uri)])]
                  (grown_spawn w w 0 [] _ (grown_refl w)))
        as (w' & evs & -> & Hg & Hs & Hd).
      exists w', (EvSpawn "get_resource" (JObj [("uri", JStr uri)]) :: evs), payload.
      split; [done|]. split; [done|]. split.
      { change (_ :: evs) with ([EvSpawn "get_resource" (JObj [("uri", JStr uri)])] ++ evs)%list.
        by rewrite spawns_app, Hs. }
      split; [|done]. intros other.
      change (_ :: evs) with ([EvSpawn "get_resource" (JObj [("uri", JStr uri)])] ++ evs)%list.
      by rewrite delivered_to_app, Hd.
Qed.

Lemma grown_trans w1 w2 w3 n m evs evs' :
  grown w1 w2 n evs → grown w2 w3 m evs' → grown w1 w3 (n + m) (evs ++ evs').
Proof.
  unfold grown. intros -> ->. simpl. by rewrite Nat.add_assoc, app_assoc.
Qed.

(** The loop of [notifyResourceUpdate] over the registered connections. *)
Lemma resource_loop uri data transports : ∀ w,
  ∃ w' evs,
    for_of transports (λ st,
      try_catch
        (await payload <- (if truthy data then ret data
                           else Enhanced.getResourceData rt uri);
         transport_send st.1 st.2 (Enhanced.resource_message rt uri payload))
        (λ error,
           console_error "Error sending resource update notification:" (Some error)))
      w
    = (Returned tt, w')
    ∧ grown w w'
        (if truthy data || String.eqb uri "autogen://system/metrics" then 0
         else length transports) evs
    ∧ spawns evs
      = (if truthy data || String.eqb uri "autogen://system/metrics" then []
         else replicate (length transports) (get_resource_call uri))
    ∧ (∀ session, Map_get session transports = None → delivered_to session evs = [])
    ∧ ∀ session t,
        NoDup transports.*1 →
        Map_get session transports = Some t → send_throws t = None →
        ∃ payload,
          delivered_to session evs = [Enhanced.resource_message rt uri payload]
          ∧ (truthy data = true → payload = data).
Proof.
  induction transports as [|[s t] rest IH]; intros w.
  - exists w, []. split; [done|]. split.
    { destruct (_ || _); apply grown_refl. }
    split; [by destruct (_ || _) | done].
  - cbn [for_of]. unfold bind at 1. cbn [fst snd].
    destruct (resource_turn uri data s t w)
      as (w1 & evs1 & payload & -> & Hg1 & Hs1 & Hd1 & Hp1).
    destruct (IH w1) as (w2 & evs2 & -> & Hg2 & Hs2 & Hn2 & Hd2).
    exists w2, (evs1 ++ evs2)%list. split; [done|]. split.
    { pose proof (grown_trans _ _ _ _ _ _ _ Hg1 Hg2) as Hg.
      by destruct (_ || _). }
    split.
    { rewrite spawns_app, Hs1, Hs2. by destruct (_ || _). }
    split.
    { intros session. cbn [Map_get]. rewrite delivered_to_app, Hd1.
      destruct (String.eqb s session); [done|]. intros Hget. by rewrite Hn2. }
    intros session t'. rewrite fmap_cons. intros [Hs Hrest]%NoDup_cons.
    cbn [Map_get]. rewrite delivered_to_app, Hd1.
    destruct (String.eqb_spec s session) as [->|Hne].
    + intros [= ->] Hsend. rewrite Hsend. exists payload. split; [|done].
      rewrite Hn2; [done|]. by apply Map_get_None.
    + intros Hget Hsend. by eapply Hd2.
Qed.

End ResourceFacts.

(** What [notifyResourceUpdate] does for a subscribed resource. *)
Lemma notifyResourceUpdate_subscribed rt uri data w :
  uri ∈ subscribers w →
  ∃ w' evs,
    Enhanced.notifyResourceUpdate rt (JStr uri) data w = (Returned tt, w')
    ∧ grown w w'
        (if truthy data || String.eqb uri "autogen://system/metrics" then 0
         else length (sseTransports w)) evs
    ∧ spawns evs
      = (if truthy data || String.eqb uri "autogen://system/metrics" then []
         else replicate (length (sseTransports w)) (get_resource_call uri))
    ∧ (∀ session, Map_get session (sseTransports w) = None →
                  delivered_to session evs = [])
    ∧ ∀ session t,
        registry_unique w →
        Map_get session (sseTransports w) = Some t → send_throws t = None →
        ∃ payload,
          delivered_to session evs = [Enhanced.resource_message rt uri payload]
          ∧ (truthy data = true → payload = data).
Proof.
  intros Hsub. unfold Enhanced.notifyResourceUpdate, bind at 1, get at 1.
  rewrite bool_decide_eq_true_2 by done. cbn [when].
  unfold bind at 1, get at 1.
  apply resource_loop.
Qed.

Lemma notifyResourceUpdate_unsubscribed rt uri data w :
  (∀ u, uri = JStr u → u ∉ subscribers w) →
  Enhanced.notifyResourceUpdate rt uri data w = (Returned tt, w).
Proof.
  intros Hsub. unfold Enhanced.notifyResourceUpdate.
  destruct uri as [| | | | |u| |]; try done.
  unfold bind, get. by rewrite bool_decide_eq_false_2 by by apply Hsub.
Qed.

(** X11: [notifyResourceUpdate] never throws, and for a resource nobody
    subscribed to it does nothing at all. *)
Theorem resource_update_never_throws rt uri data w :
  (∃ w', Enhanced.notifyResourceUpdate rt uri data w = (Returned tt, w')) ∧
  ((∀ u, uri = JStr u → u ∉ subscribers w) →
   Enhanced.notifyResourceUpdate rt uri data w = (Returned tt, w)).
Proof.
  split; [|apply notifyResourceUpdate_unsubscribed].
  destruct uri as [| | | | |u| |]; try by eexists.
  destruct (decide (u ∈ subscribers w)) as [Hin|Hout].
  - destruct (notifyResourceUpdate_subscribed rt u data w Hin) as (w' & evs & -> & _).
    by eexists.
  - exists w. apply notifyResourceUpdate_unsubscribed. by intros ? [= <-].
Qed.

Lemma resource_update_never_throws_witness :
  Enhanced.notifyResourceUpdate rt_agent_not_found (JStr "autogen://agents/list")
    JUndefined two_clients_first_closed
  = (Returned tt, two_clients_first_closed).
Proof.
  apply (resource_update_never_throws rt_agent_not_found (JStr "autogen://agents/list")
           JUndefined two_clients_first_closed).
  intros u [= <-]. apply not_elem_of_empty.
Defined.

(** X12: for a subscribed resource and a truthy payload,
    [notifyResourceUpdate] does not call the backend and delivers the update
    exactly once to every registered connection whose [send] succeeds. *)
Theorem resource_update_reaches_healthy_connections rt uri data w session t :
  uri ∈ subscribers w → truthy data = true →
  registry_unique w →
  Map_get session (sseTransports w) = Some t → send_throws t = None →
  let after := Enhanced.notifyResourceUpdate rt (JStr uri) data w in
  after.1 = Returned tt ∧
  spawned after.2 = spawned w ∧
  ∃ evs, trace after.2 = (trace w ++ evs)%list ∧
         spawns evs = [] ∧
         delivered_to session evs = [Enhanced.resource_message rt uri data].
Proof.
  intros Hsub Hdata Hunique Hget Hsend after. unfold after.
  destruct (notifyResourceUpdate_subscribed rt uri data w Hsub)
    as (w' & evs & -> & Hg & Hs & _ & Hd).
  rewrite Hdata in Hg, Hs. simpl in Hg, Hs. unfold grown in Hg. subst w'. simpl.
  split; [done|]. split; [lia|]. exists evs. split; [done|]. split; [done|].
  destruct (Hd session t Hunique Hget Hsend) as (payload & -> & Hp).
  by rewrite Hp.
Qed.

Lemma subscribe_runs rt uri w :
  ∃ w' evs,
    Enhanced.subscribe rt uri w = (Returned (JObj []), w')
    ∧ grown (with_subscribers (λ s, {[uri]} ∪ s) w) w'
        (if String.eqb uri "autogen://system/metrics" then 0
         else length (sseTransports w)) evs
    ∧ spawns evs
      = (if String.eqb uri "autogen://system/metrics" then []
         else replicate (length (sseTransports w)) (get_resource_call uri)).
Proof.
  unfold Enhanced.subscribe, bind at 1, update at 1. unfold bind at 1.
  destruct (notifyResourceUpdate_subscribed rt uri JUndefined
              (with_subscribers (λ s, {[uri]} ∪ s) w))
    as (w' & evs & -> & Hg & Hs & _).
  { simpl. apply elem_of_union_l. by apply elem_of_singleton. }
  by exists w', evs.
Qed.

(** X13: subscribing to a resource other than the system metrics records
    the subscription, returns the empty object, and fetches the resource
    from the backend once for every registered connection (not once per
    subscription), whether or not the sends succeed. *)
Theorem subscribe_asks_backend_once_per_connection rt uri w :
  uri ≠ "autogen://system/metrics" →
  let after := Enhanced.subscribe rt uri w in
  after.1 = Returned (JObj []) ∧
  subscribers after.2 = {[uri]} ∪ subscribers w ∧
  spawned after.2 = spawned w + length (sseTransports w) ∧
  ∃ evs, trace after.2 = (trace w ++ evs)%list ∧
         spawns evs = replicate (length (sseTransports w)) (get_resource_call uri).
Proof.
  intros Hne after. unfold after.
  destruct (subscribe_runs rt uri w) as (w' & evs & -> & Hg & Hs).
  destruct (String.eqb_spec uri "autogen://system/metrics"); [done|].
  unfold grown in Hg. subst w'. simpl.
  split; [done|]. split; [done|]. split; [done|]. by exists evs.
Qed.

Lemma subscribe_asks_backend_once_per_connection_witness :
  spawned (Enhanced.subscribe rt_ok "autogen://agents/list" two_clients_first_closed).2
  = spawned two_clients_first_closed + length (sseTransports two_clients_first_closed).
Proof.
  apply (subscribe_asks_backend_once_per_connection rt_ok "autogen://agents/list"
           two_clients_first_closed).
  discriminate.
Defined.

(** X14: after subscribing to a resource and unsubscribing from it, the
    resource is not subscribed, the other subscriptions are as before, and an
    update of the resource notifies nobody. *)
Theorem unsubscribe_undoes_subscribe rt uri data w :
  let subscribed := (Enhanced.subscribe rt uri w).2 in
  let unsubscribed := (Enhanced.unsubscribe uri subscribed).2 in
  uri ∈ subscribers subscribed ∧
  subscribers unsubscribed = subscribers w ∖ {[uri]} ∧
  Enhanced.notifyResourceUpdate rt (JStr uri) data unsubscribed
  = (Returned tt, unsubscribed).
Proof.
  intros subscribed unsubscribed.
  assert (subscribers subscribed = {[uri]} ∪ subscribers w) as Hsub.
  { unfold subscribed.
    destruct (subscribe_runs rt uri w) as (w' & evs & -> & Hg & _).
    unfold grown in Hg. by subst w'. }
  assert (subscribers unsubscribed = subscribers w ∖ {[uri]}) as Hunsub.
  { unfold unsubscribed, Enhanced.unsubscribe, bind, update. simpl.
    rewrite Hsub. apply set_eq. intros x.
    rewrite !elem_of_difference, elem_of_union, elem_of_singleton. tauto. }
  split.
  { rewrite Hsub. apply elem_of_union_l. by apply elem_of_singleton. }
  split; [done|].
  apply notifyResourceUpdate_unsubscribed. intros u [= <-].
  rewrite Hunsub, elem_of_difference, elem_of_singleton. tauto.
Qed.

Lemma handleResourceBroadcast_runs rt args w :
  ∃ w' n evs,
    Enhanced.handleResourceBroadcast rt args w
    = (Returned (JObj [("success", JBool true);
                       ("uri", prop "uri" args);
                       ("change_type", prop "change_type" args);
                       ("subscribers", JNum (Z.of_nat (size (subscribers w))));
                       ("timestamp", JStr (Date_toISOString rt))]),
       with_lastResourceUpdate (Date_now rt) w')
    ∧ grown w w' n evs
    ∧ ((∀ u, prop "uri" args = JStr u → u ∉ subscribers w) → w' = w).
Proof.
  unfold Enhanced.handleResourceBroadcast. cbv zeta. unfold bind at 1.
  assert ((∀ u, prop "uri" args = JStr u → u ∉ subscribers w)
          ∨ ∃ u, prop "uri" args = JStr u ∧ u ∈ subscribers w) as [Hout|(u & Huri & Hu)].
  { destruct (prop "uri" args) as [| | | | |u| |]; try (by left).
    destruct (decide (u ∈ subscribers w)); [right; by exists u|].
    left. by intros ? [= <-]. }
  - rewrite notifyResourceUpdate_unsubscribed by done.
    exists w, 0, []. split; [done|]. split; [apply grown_refl | done].
  - rewrite Huri.
    destruct (notifyResourceUpdate_subscribed rt u (prop "data" args) w Hu)
      as (w' & evs & -> & Hg & _).
    eexists w', _, evs. split; [|split; [done|]].
    + unfold grown in Hg. by subst w'.
    + intros Hout. by destruct (Hout u).
Qed.

(** X15: [handleResourceBroadcast] always returns [success: true] with
    the request's [uri] and [change_type] and the number of subscriptions,
    and stamps the last update, also when the resource has no subscriber,
    in which case nothing is sent and the backend is not called. *)
Theorem broadcast_tool_always_reports_success rt args w :
  let after := Enhanced.handleResourceBroadcast rt args w in
  after.1 = Returned (JObj [("success", JBool true);
                            ("uri", prop "uri" args);
                            ("change_type", prop "change_type" args);
                            ("subscribers", JNum (Z.of_nat (size (subscribers w))));
                            ("timestamp", JStr (Date_toISOString rt))]) ∧
  lastResourceUpdate after.2 = Date_now rt ∧
  subscribers after.2 = subscribers w ∧
  progressTokens after.2 = progressTokens w ∧
  ((∀ u, prop "uri" args = JStr u → u ∉ subscribers w) →
   trace after.2 = trace w ∧ spawned after.2 = spawned w).
Proof.
  intros after. unfold after.
  destruct (handleResourceBroadcast_runs rt args w) as (w' & n & evs & -> & Hg & Hsame).
  simpl. split; [done|]. split; [done|].
  unfold grown in Hg. split; [by subst w'|]. split; [by subst w'|].
  intros Hout. by rewrite (Hsame Hout).
Qed.

Lemma broadcast_tool_always_reports_success_witness :
  trace (Enhanced.handleResourceBroadcast rt_ok
           [("uri", JStr "autogen://agents/list"); ("change_type", JStr "updated")]
           one_client).2
  = trace one_client.
Proof.
  apply (broadcast_tool_always_reports_success rt_ok
           [("uri", JStr "autogen://agents/list"); ("change_type", JStr "updated")]
           one_client).
  intros u [= <-]. apply not_elem_of_empty.
Defined.

Lemma resource_update_reaches_healthy_connections_witness :
  delivered_to "s2"
    (trace (Enhanced.notifyResourceUpdate rt_ok (JStr "autogen://agents/list")
              (JBool true) subscribed_clients).2)
  = [Enhanced.resource_message rt_ok "autogen://agents/list" (JBool true)].
Proof.
  destruct (resource_update_reaches_healthy_connections rt_ok "autogen://agents/list"
              (JBool true) subscribed_clients "s2" (healthy "client"))
    as (_ & _ & evs & -> & _ & Hd).
  - apply (bool_decide_unpack _). by vm_compute.
  - reflexivity.
  - unfold registry_unique. apply (bool_decide_unpack _). by vm_compute.
  - reflexivity.
  - reflexivity.
  - exact Hd.
Defined.

(** ** Reading resources and prompts *)

(** X16: when the backend exits with a non-zero code, reading a resource
    through the [ReadResource] handler of [enhanced_index.ts] throws the
    backend's error, while [getResourceData], which feeds the update
    notifications, returns an object with the error message instead. *)
Theorem read_surfaces_backend_failure_notification_hides_it
    rt hs uri w code stdout stderr :
  uri ≠ "autogen://system/metrics" →
  child_process rt (spawned w) "get_resource" (JObj [("uri", JStr uri)])
  = ProcClose code stdout stderr →
  code ≠ Some 0%Z →
  (Enhanced.read_resource rt hs uri w).1
  = Threw (McpError InternalError (stderr_or_default stderr)) ∧
  (Enhanced.getResourceData rt uri w).1
  = Returned (JObj [("error",
                     JStr (McpError_message rt InternalError
                             (stderr_or_default stderr)))]).
Proof.
  intros Hne Hproc Hcode.
  unfold Enhanced.read_resource, Enhanced.getResourceData.
  destruct (String.eqb_spec uri "autogen://system/metrics"); [done|].
  unfold try_catch, bind. rewrite callPythonHandler_runs, Hproc. simpl.
  unfold on_close. by rewrite bool_decide_eq_false_2 by done.
Qed.

Lemma read_surfaces_backend_failure_notification_hides_it_witness :
  (Enhanced.read_resource rt_agent_not_found sample_host "autogen://agents/list"
     one_client).1
  = Threw (McpError InternalError "agent not found") ∧
  (Enhanced.getResourceData rt_agent_not_found "autogen://agents/list" one_client).1
  = Returned (JObj [("error", JStr "MCP error -32603: agent not found")]).
Proof.
  apply (read_surfaces_backend_failure_notification_hides_it rt_agent_not_found
           sample_host "autogen://agents/list" one_client (Some 2%Z) "" "agent not found");
    [discriminate | reflexivity | discriminate].
Defined.

(** X17: the only error [handleResourceDirectly] of [index.ts] throws is
    [Unknown resource: <uri>], and only for a resource other than the three
    built-in ones whose backend call failed: a failing backend is reported as
    an unknown resource. *)
Theorem index_read_fails_only_as_unknown_resource rt hs uri w e :
  (Index.handleResourceDirectly rt hs uri w).1 = Threw e →
  e = McpError InvalidRequest ("Unknown resource: " ++ uri) ∧
  uri ≠ "autogen://agents/list" ∧
  uri ≠ "autogen://progress/status" ∧
  uri ≠ "autogen://metrics/performance" ∧
  ∃ error, (callPythonHandler rt "get_resource" (JObj [("uri", JStr uri)]) w).1
           = Threw error.
Proof.
  unfold Index.handleResourceDirectly.
  destruct (String.eqb_spec uri "autogen://agents/list") as [->|Ha].
  { unfold try_catch, bind.
    by destruct (callPythonHandler rt _ _ w) as [[r|e'] w']. }
  destruct (String.eqb_spec uri "autogen://progress/status") as [->|Hp]; [done|].
  destruct (String.eqb_spec uri "autogen://metrics/performance") as [->|Hm]; [done|].
  unfold try_catch, bind.
  destruct (callPythonHandler rt _ _ w) as [[r|e'] w']; simpl; [done|].
  intros [= <-]. repeat split; try done. by exists e'.
Qed.

Lemma index_read_fails_only_as_unknown_resource_witness :
  (Index.handleResourceDirectly rt_agent_not_found sample_host
     "autogen://chat/history" one_client).1
  = Threw (McpError InvalidRequest "Unknown resource: autogen://chat/history")
  ∧ ∃ error,
      (callPythonHandler rt_agent_not_found "get_resource"
         (JObj [("uri", JStr "autogen://chat/history")]) one_client).1
      = Threw error.
Proof.
  split; [reflexivity|].
  destruct (index_read_fails_only_as_unknown_resource rt_agent_not_found sample_host
              "autogen://chat/history" one_client
              (McpError InvalidRequest "Unknown resource: autogen://chat/history"))
    as (_ & _ & _ & _ & Hbackend).
  - reflexivity.
  - exact Hbackend.
Defined.

(** X18: [GetPrompt] of [enhanced_index.ts] returns a prompt only for
    [autogen-workflow] and throws [Unknown prompt: <name>] for every other
    name, among them the four other prompts that [ListPrompts] advertises. *)
Theorem enhanced_serves_one_listed_prompt rt arguments :
  (∀ promptName,
     is_returned (Enhanced.get_prompt rt promptName arguments) = true
     ↔ promptName = "autogen-workflow") ∧
  (∀ promptName,
     promptName ≠ "autogen-workflow" →
     Enhanced.get_prompt rt promptName arguments
     = Threw (McpError InvalidRequest ("Unknown prompt: " ++ promptName))) ∧
  List.filter (λ name, negb (is_returned (Enhanced.get_prompt rt name arguments)))
    (prompt_name <$> Enhanced.list_prompts)
  = ["code-review"; "research-analysis"; "creative-collaboration"; "problem-solving"].
Proof.
  split; [|split].
  - intros promptName. unfold Enhanced.get_prompt.
    by destruct (String.eqb_spec promptName "autogen-workflow").
  - intros promptName Hne. unfold Enhanced.get_prompt.
    by destruct (String.eqb_spec promptName "autogen-workflow").
  - reflexivity.
Qed.

Lemma enhanced_serves_one_listed_prompt_witness :
  Enhanced.get_prompt rt_ok "code-review" None
  = Threw (McpError InvalidRequest ("Unknown prompt: " ++ "code-review")).
Proof.
  destruct (enhanced_serves_one_listed_prompt rt_ok None) as (_ & Hother & _).
  apply Hother. discriminate.
Defined.

(** X19: [GetPrompt] of [index.ts] returns a prompt exactly for the names
    that its [ListPrompts] advertises. *)
Theorem index_serves_exactly_the_listed_prompts rt promptName arguments :
  is_returned (Index.get_prompt rt promptName arguments) = true
  ↔ promptName ∈ prompt_name <$> Index.list_prompts.
Proof.
  unfold Index.get_prompt.
  change (prompt_name <$> Index.list_prompts)
    with ["autogen-workflow"; "code-review"; "research-analysis"].
  rewrite !elem_of_cons, elem_of_nil.
  destruct (String.eqb_spec promptName "autogen-workflow"); [simpl; tauto|].
  destruct (String.eqb_spec promptName "code-review"); [simpl; tauto|].
  destruct (String.eqb_spec promptName "research-analysis"); [simpl; tauto|].
  simpl. split; [done | tauto].
Qed.

Lemma index_serves_exactly_the_listed_prompts_witness :
  is_returned (Index.get_prompt rt_ok "research-analysis" None) = true.
Proof.
  apply (index_serves_exactly_the_listed_prompts rt_ok "research-analysis" None).
  apply (bool_decide_unpack _). by vm_compute.
Defined.

(** ** Tool calls of [index.ts] *)

Lemma spawns_deliveries msg transports : spawns (deliveries msg transports) = [].
Proof. unfold deliveries. by induction transports as [|st rest IH]. Qed.

Lemma for_of_send_healthy msg transports w :
  all_healthy transports →
  for_of transports (λ st, transport_send st.1 st.2 msg) w
  = (Returned tt, emit_all (deliveries msg transports) w).
Proof.
  intros Hall. revert w. induction Hall as [|[s t] rest Hsend _ IH]; intros w.
  - simpl. unfold ret. by rewrite emit_all_nil.
  - cbn [for_of]. unfold bind, transport_send. simpl in Hsend. simpl.
    rewrite Hsend, IH. unfold deliveries. simpl.
    by rewrite emit_as_emit_all, emit_all_app.
Qed.

Lemma index_sendProgressNotification_healthy token progress message w :
  all_healthy (sseTransports w) →
  Index.sendProgressNotification token progress message w
  = (Returned tt,
     emit_all (deliveries (Index.progress_message token progress message)
                 (sseTransports w)) w).
Proof.
  intros Hall. unfold Index.sendProgressNotification, bind, get.
  by apply for_of_send_healthy.
Qed.

(** A loop whose turns only append events that are no backend calls. *)
Lemma for_of_appends {A} (xs : list A) (body : A → Async unit)
    (transports : list (string * SSEServerTransport)) : ∀ w,
  (∀ x w', sseTransports w' = transports →
           ∃ evs, body x w' = (Returned tt, emit_all evs w') ∧ spawns evs = []) →
  sseTransports w = transports →
  ∃ evs, for_of xs body w = (Returned tt, emit_all evs w) ∧ spawns evs = [].
Proof.
  induction xs as [|x xs IH]; intros w Hbody Hw.
  - exists []. unfold for_of, ret. by rewrite emit_all_nil.
  - cbn [for_of]. unfold bind.
    destruct (Hbody x w Hw) as (evs1 & -> & Hs1).
    destruct (IH (emit_all evs1 w) Hbody Hw) as (evs2 & -> & Hs2).
    exists (evs1 ++ evs2)%list. rewrite emit_all_app. split; [done|].
    by rewrite spawns_app, Hs1, Hs2.
Qed.

(** X20: in [index.ts], a call of a streaming tool with a string progress
    token, while every connection accepts sends, never calls the backend: it
    returns the fixed summary, and the token is still tracked afterwards. *)
Theorem index_streaming_never_reaches_backend rt request w tok :
  all_healthy (sseTransports w) →
  is_streaming_tool (Index.name request) = true →
  Index.string_token (Index.progressToken request) = Some tok →
  let after := Index.call_tool rt request w in
  after.1 = Returned (JObj [("streaming", JBool true);
                            ("completed", JBool true);
                            ("tool", JStr (Index.name request))]) ∧
  spawned after.2 = spawned w ∧
  progressTokens after.2 !! tok = Some (Index.name request) ∧
  ∃ evs, trace after.2 = (trace w ++ evs)%list ∧ spawns evs = [].
Proof.
  intros Hall Hstream Htok after.
  assert (∃ evs, Index.call_tool rt request w
                 = (Returned (JObj [("streaming", JBool true);
                                    ("completed", JBool true);
                                    ("tool", JStr (Index.name request))]),
                    emit_all evs
                      (with_progressTokens (insert tok (Index.name request)) w))
                 ∧ spawns evs = []) as (evs & Hrun & Hs).
  { unfold Index.call_tool, try_catch, Index.call_tool_try.
    rewrite Hstream, Htok. unfold Index.if_string_token. rewrite Htok.
    unfold bind at 1. unfold bind at 1, update at 1.
    rewrite index_sendProgressNotification_healthy by done.
    cbn [fst snd sseTransports with_progressTokens].
    unfold Index.handleStreamingTool, bind at 1.
    set (w1 := emit_all _ _).
    destruct (for_of_appends Index.step_indices
                (λ i, Index.sendProgressNotification tok
                        (JDouble (Z.of_N i) (Z.of_N Index.steps) 100)
                        ("Step " ++ decimal i ++ "/" ++ decimal Index.steps))
                (sseTransports w) w1) as (evs1 & -> & Hs1); [|done|].
    { intros i w' Hw'. rewrite index_sendProgressNotification_healthy
        by by rewrite Hw'.
      eexists. split; [done|]. apply spawns_deliveries. }
    unfold bind at 1, get at 1. cbn [fst snd]. unfold bind at 1.
    rewrite for_of_send_healthy by done. unfold ret, w1.
    rewrite !emit_all_app. eexists. split; [done|].
    by rewrite !spawns_app, Hs1, !spawns_deliveries. }
  unfold after. rewrite Hrun. simpl. split; [done|]. split; [done|].
  split; [apply lookup_insert_eq|]. by exists evs.
Qed.

Lemma index_streaming_never_reaches_backend_witness :
  spawned (Index.call_tool rt_agent_not_found (index_streaming_workflow (JStr "t2"))
             one_client).2
  = spawned one_client.
Proof.
  apply (index_streaming_never_reaches_backend rt_agent_not_found
           (index_streaming_workflow (JStr "t2")) one_client "t2").
  - repeat constructor.
  - reflexivity.
  - reflexivity.
Defined.

(** X21: in [index.ts], when the first registered connection refuses
    sends, every tool call with a string progress token fails with the send
    error before the backend is called: the progress-0 send fails, the
    progress -1 send of the catch block fails too, and the token stays
    tracked. *)
Theorem index_closed_first_connection_fails_tracked_calls
    rt request w session t rest e tok :
  sseTransports w = (session, t) :: rest → send_throws t = Some e →
  Index.string_token (Index.progressToken request) = Some tok →
  let after := Index.call_tool rt request w in
  after.1 = Threw e ∧
  spawned after.2 = spawned w ∧
  progressTokens after.2 !! tok = Some (Index.name request) ∧
  trace after.2
  = (trace w ++
     [EvSendFailed session
        (Index.progress_message tok (JNum 0)
           ("Starting " ++ Index.name request ++ "...")) e;
      EvSendFailed session
        (Index.progress_message tok (JNum (-1))
           ("Error in " ++ Index.name request ++ ": " ++ Index.errorMessage rt e)) e])%list.
Proof.
  intros Hreg Hsend Htok after. unfold after.
  unfold Index.call_tool, try_catch, Index.call_tool_try, Index.call_tool_catch.
  unfold Index.if_string_token. rewrite Htok.
  unfold bind, update, Index.sendProgressNotification, bind, get. simpl.
  rewrite Hreg. simpl. unfold bind, transport_send. rewrite Hsend. simpl.
  rewrite Hreg. simpl. unfold bind. rewrite Hsend. simpl.
  split; [done|]. split; [done|]. split; [apply lookup_insert_eq|].
  by rewrite <- app_assoc.
Qed.

Lemma index_closed_first_connection_fails_tracked_calls_witness :
  (Index.call_tool rt_ok
     (Index.mkCallToolRequest "execute_workflow" (Some []) (JStr "t1"))
     two_clients_first_closed).1
  = Threw (JsError "Not connected").
Proof.
  apply (index_closed_first_connection_fails_tracked_calls rt_ok
           (Index.mkCallToolRequest "execute_workflow" (Some []) (JStr "t1"))
           two_clients_first_closed "s1" (broken "gone")
           [("s2", healthy "client")] (JsError "Not connected") "t1");
    reflexivity.
Defined.

Lemma delivered_to_deliveries session t msg transports :
  NoDup transports.*1 → Map_get session transports = Some t →
  delivered_to session (deliveries msg transports) = [msg].
Proof.
  unfold deliveries, delivered_to.
  induction transports as [|[s t'] rest IH]; [by intros _ H|].
  rewrite fmap_cons. intros [Hs Hrest]%NoDup_cons. cbn [Map_get fmap list_fmap omap list_omap fst].
  destruct (String.eqb_spec s session) as [->|Hne].
  - intros _. f_equal.
    simpl in Hs. apply Map_get_None in Hs. clear -Hs.
    induction rest as [|[s' t''] rest IH]; [done|].
    cbn [Map_get] in Hs. cbn [fmap list_fmap omap list_omap fst].
    destruct (String.eqb s' session); [done | by apply IH].
  - by apply IH.
Qed.

(** The run of a tracked call of a regular tool of [src/index.ts] while every
    connection is healthy. *)
Lemma index_regular_call_runs rt request w tok :
  all_healthy (sseTransports w) →
  is_streaming_tool (Index.name request) = false →
  Index.string_token (Index.progressToken request) = Some tok →
  ∃ last,
    Index.call_tool rt request w
    = ((callPythonHandler rt (Index.name request) (JObj (Index.args_of request)) w).1,
       with_progressTokens (delete tok)
         (emit_all
            (deliveries
               (Index.progress_message tok
                  (JNum (if is_returned
                              (callPythonHandler rt (Index.name request)
                                 (JObj (Index.args_of request)) w).1
                         then 100 else -1)) last)
               (sseTransports w))
            (count_spawn
               (emit_all [EvSpawn (Index.name request) (JObj (Index.args_of request))]
                  (emit_all
                     (deliveries
                        (Index.progress_message tok (JNum 50)
                           ("Processing " ++ Index.name request ++ "..."))
                        (sseTransports w))
                     (emit_all
                        (deliveries
                           (Index.progress_message tok (JNum 0)
                              ("Starting " ++ Index.name request ++ "..."))
                           (sseTransports w))
                        (with_progressTokens <[tok:=Index.name request]> w))))))).
Proof.
  intros Hall Hstream Htok.
  unfold Index.call_tool, try_catch, Index.call_tool_try, Index.regular_tool,
    Index.call_tool_catch.
  rewrite Hstream. unfold Index.if_string_token. rewrite Htok.
  unfold bind, update.
  rewrite index_sendProgressNotification_healthy by done. cbv beta iota.
  rewrite index_sendProgressNotification_healthy by done. cbv beta iota.
  rewrite !callPythonHandler_runs.
  cbn [fst snd spawned emit_all with_progressTokens sseTransports].
  destruct (match child_process rt _ _ _ with ProcError _ => _ | _ => _ end)
    as [result|error]; cbv beta iota; cbn [is_returned].
  - rewrite index_sendProgressNotification_healthy by done. by eexists.
  - rewrite index_sendProgressNotification_healthy by done. by eexists.
Qed.

(** X22: in [index.ts], a call of a regular tool with a string progress
    token, while every connection accepts sends, returns or throws exactly
    what the backend bridge does, calls the backend once, leaves the token
    untracked, and delivers to each registered session the progress values
    0, 50 and then 100 on success or -1 on failure. *)
Theorem index_tracked_call_completes rt request w tok session t :
  all_healthy (sseTransports w) → registry_unique w →
  Map_get session (sseTransports w) = Some t →
  is_streaming_tool (Index.name request) = false →
  Index.string_token (Index.progressToken request) = Some tok →
  let after := Index.call_tool rt request w in
  let backend :=
    (callPythonHandler rt (Index.name request) (JObj (Index.args_of request)) w).1 in
  after.1 = backend ∧
  spawned after.2 = S (spawned w) ∧
  progressTokens after.2 !! tok = None ∧
  ∃ evs, trace after.2 = (trace w ++ evs)%list ∧
         progress_delivered_to session evs
         = [JNum 0; JNum 50; JNum (if is_returned backend then 100 else -1)].
Proof.
  intros Hall Hunique Hget Hstream Htok after backend.
  destruct (index_regular_call_runs rt request w tok Hall Hstream Htok) as [last Hrun].
  unfold after, backend. rewrite Hrun. cbn [fst snd].
  split; [done|]. split; [done|]. split; [apply lookup_delete_eq|].
  eexists. split; [simpl; by rewrite <- !app_assoc|].
  unfold progress_delivered_to.
  rewrite !delivered_to_app, !(delivered_to_deliveries session t) by done.
  by simpl.
Qed.

Lemma index_tracked_call_completes_witness :
  (Index.call_tool rt_agent_not_found
     (Index.mkCallToolRequest "execute_workflow" (Some []) (JStr "t1")) one_client).1
  = (callPythonHandler rt_agent_not_found "execute_workflow" (JObj []) one_client).1.
Proof.
  apply (index_tracked_call_completes rt_agent_not_found
           (Index.mkCallToolRequest "execute_workflow" (Some []) (JStr "t1"))
           one_client "t1" "s1" (healthy "client")).
  - repeat constructor.
  - unfold registry_unique. apply (bool_decide_unpack _). by vm_compute.
  - reflexivity.
  - reflexivity.
  - reflexivity.
Defined.
